(** * Modal: the visibility / fade state machine of [src/components/Modal.tsx]

    The component is a function that the host framework re-invokes on every
    update and whose effects run after each commit.  It is embedded here as
    explicit state passing over one component instance: the hook cells
    ([useRef], [useState], [useCallback]), the animated opacity value, the
    back-button subscription, and a ghost trace of the calls the component
    makes to its collaborators. *)

From Stdlib Require Import Floats.
From Stdlib Require Import Bool List Arith Lia ZArith.
From Stdlib Require String.
Import ListNotations.
Import String.StringSyntax.
Delimit Scope string_scope with string.
Set Warnings "-inexact-float".

(** ** Numbers *)

(** JavaScript numbers are IEEE 754 binary64 values: the kernel's primitive
    floats, whose product is the rounded product the code computes. *)
Definition number := PrimFloat.float.

(** [Object.is] on numbers, as used by the dependency lists of the hooks:
    NaN is the same value as NaN, +0 and -0 are not the same value. *)
Definition Object_is (a b : number) : bool := PrimFloat.Leibniz.eqb a b.

Definition DEFAULT_DURATION : number := 220%float.

(** ** Properties supplied by the owner *)

(** Modelled from the spec: [core/theming] is not among the sources ("an
    ambient theme provider (exposes animation-speed scale and backdrop
    color)").  The theme a render works with, as [useInternalTheme] returns
    it from the ambient theme and the [theme] prop, reduced to
    [theme.animation.scale]. *)
Record InternalTheme := {
  animation_scale : number
}.

(** [dismissable] and [dismissableBackButton] may be left undefined. *)
Record ModalProps := {
  p_dismissable : option bool;
  p_dismissableBackButton : option bool;
  visible : bool;
  theme : InternalTheme
}.

(** [const { scale } = theme.animation] *)
Definition scale (p : ModalProps) : number := animation_scale (theme p).

(** Parameter defaults: [dismissable = true],
    [dismissableBackButton = dismissable]. *)
Definition dismissable (p : ModalProps) : bool :=
  match p_dismissable p with Some b => b | None => true end.

Definition dismissableBackButton (p : ModalProps) : bool :=
  match p_dismissableBackButton p with Some b => b | None => dismissable p end.

(** ** The animated value *)

Module Easing.
Inductive t := cubic | out (f : t).
End Easing.

(** The two completion callbacks the component passes to [start]: none (show)
    and the [({ finished }) => ...] arrow of [hideModal]. *)
Inductive EndCallback := no_callback | hide_callback.

Module Animated.

Record TimingConfig := {
  toValue : number;
  duration : number;
  easing : Easing.t;
  useNativeDriver : bool
}.

(** One run of [Animated.timing(value, config).start(callback)]. *)
Record Run := {
  run_id : nat;
  run_config : TimingConfig;
  run_callback : EndCallback
}.

(** Modelled from the spec: [utils/useAnimatedValue] and the host's
    animated-value primitive are not among the sources ("a generic
    animated-value primitive with timed interpolation"; "completion is
    delivered via a callback that may be skipped if the animation is
    interrupted (treated as not finished)").  [settled] is the value the
    cell was created with or the target of the last run that completed;
    intermediate frames are not tracked.  [animation] is the run in
    flight. *)
Record Value := {
  settled : number;
  animation : option Run
}.

End Animated.

(** ** Closures *)

(** The function returned by [React.useCallback] for [hideModal].  Of its
    dependency list [[onDismissCallback, opacity, scale, rendered]] the first
    two never change identity, so a closure is determined by the [scale] and
    [rendered] of the render pass that created it; [fn_id] is its identity. *)
Record HideModal := {
  fn_id : nat;
  fn_scale : number;
  fn_rendered : bool
}.

(** The [onHardwareBackPress] arrow created by the subscription effect. *)
Record Listener := {
  l_dismissable : bool;
  l_dismissableBackButton : bool;
  l_hideModal : HideModal
}.

(** ** Ghost trace: calls made to the collaborators, most recent first *)
Inductive Action :=
| Started (id : nat) (c : Animated.TimingConfig) (cb : EndCallback)
    (* Animated.timing(opacity, c).start(cb), run number id *)
| Ended (id : nat) (finished : bool)
    (* run id ended; its callback, if any, received { finished } *)
| Dismissed (id : nat)
    (* onDismissCallback() called from the end callback of run id *)
| Subscribed   (* addEventListener(BackHandler, 'hardwareBackPress', ...) *)
| Removed.     (* subscription.remove() *)

(** ** One component instance *)
Record Instance := {
  mounted : bool;
  props : ModalProps;                (* props of the last committed render *)
  visibleRef : bool;                 (* visibleRef.current *)
  rendered : bool;                   (* the useState cell *)
  prevVisible : option bool;         (* prevVisible.current, None for null *)
  opacity : Animated.Value;
  hideModal_memo : HideModal;        (* the useCallback cell of hideModal *)
  subscription : option Listener;
  next_fn : nat;
  next_run : nat;
  trace : list Action
}.

Definition set_mounted (b : bool) (st : Instance) : Instance :=
  {| mounted := b; props := props st; visibleRef := visibleRef st;
     rendered := rendered st; prevVisible := prevVisible st;
     opacity := opacity st; hideModal_memo := hideModal_memo st;
     subscription := subscription st; next_fn := next_fn st;
     next_run := next_run st; trace := trace st |}.

Definition set_props (p : ModalProps) (st : Instance) : Instance :=
  {| mounted := mounted st; props := p; visibleRef := visibleRef st;
     rendered := rendered st; prevVisible := prevVisible st;
     opacity := opacity st; hideModal_memo := hideModal_memo st;
     subscription := subscription st; next_fn := next_fn st;
     next_run := next_run st; trace := trace st |}.

Definition set_visibleRef (b : bool) (st : Instance) : Instance :=
  {| mounted := mounted st; props := props st; visibleRef := b;
     rendered := rendered st; prevVisible := prevVisible st;
     opacity := opacity st; hideModal_memo := hideModal_memo st;
     subscription := subscription st; next_fn := next_fn st;
     next_run := next_run st; trace := trace st |}.

Definition set_rendered (b : bool) (st : Instance) : Instance :=
  {| mounted := mounted st; props := props st; visibleRef := visibleRef st;
     rendered := b; prevVisible := prevVisible st;
     opacity := opacity st; hideModal_memo := hideModal_memo st;
     subscription := subscription st; next_fn := next_fn st;
     next_run := next_run st; trace := trace st |}.

Definition set_prevVisible (v : option bool) (st : Instance) : Instance :=
  {| mounted := mounted st; props := props st; visibleRef := visibleRef st;
     rendered := rendered st; prevVisible := v;
     opacity := opacity st; hideModal_memo := hideModal_memo st;
     subscription := subscription st; next_fn := next_fn st;
     next_run := next_run st; trace := trace st |}.

Definition set_opacity (o : Animated.Value) (st : Instance) : Instance :=
  {| mounted := mounted st; props := props st; visibleRef := visibleRef st;
     rendered := rendered st; prevVisible := prevVisible st;
     opacity := o; hideModal_memo := hideModal_memo st;
     subscription := subscription st; next_fn := next_fn st;
     next_run := next_run st; trace := trace st |}.

Definition set_subscription (s : option Listener) (st : Instance) : Instance :=
  {| mounted := mounted st; props := props st; visibleRef := visibleRef st;
     rendered := rendered st; prevVisible := prevVisible st;
     opacity := opacity st; hideModal_memo := hideModal_memo st;
     subscription := s; next_fn := next_fn st;
     next_run := next_run st; trace := trace st |}.

Definition new_hideModal (s : number) (r : bool) (st : Instance) : Instance :=
  {| mounted := mounted st; props := props st; visibleRef := visibleRef st;
     rendered := rendered st; prevVisible := prevVisible st;
     opacity := opacity st;
     hideModal_memo := {| fn_id := next_fn st; fn_scale := s; fn_rendered := r |};
     subscription := subscription st; next_fn := S (next_fn st);
     next_run := next_run st; trace := trace st |}.

Definition new_run (c : Animated.TimingConfig) (cb : EndCallback)
    (st : Instance) : Instance :=
  {| mounted := mounted st; props := props st; visibleRef := visibleRef st;
     rendered := rendered st; prevVisible := prevVisible st;
     opacity :=
       {| Animated.settled := Animated.settled (opacity st);
          Animated.animation :=
            Some {| Animated.run_id := next_run st;
                    Animated.run_config := c;
                    Animated.run_callback := cb |} |};
     hideModal_memo := hideModal_memo st;
     subscription := subscription st; next_fn := next_fn st;
     next_run := S (next_run st); trace := Started (next_run st) c cb :: trace st |}.

Definition emit (a : Action) (st : Instance) : Instance :=
  {| mounted := mounted st; props := props st; visibleRef := visibleRef st;
     rendered := rendered st; prevVisible := prevVisible st;
     opacity := opacity st; hideModal_memo := hideModal_memo st;
     subscription := subscription st; next_fn := next_fn st;
     next_run := next_run st; trace := a :: trace st |}.

(** ** Hook setters and callbacks *)

(** [setRendered]: the framework drops state updates of a destroyed
    instance. *)
Definition setRendered (b : bool) (st : Instance) : Instance :=
  if mounted st then set_rendered b st else st.

(** Modelled from the spec: [use-latest-callback] wraps [onDismiss] ("Dismiss
    callback: externally supplied side-effecting function"); the call is
    recorded in the trace with the run whose end callback made it. *)
Definition onDismissCallback (id : nat) (st : Instance) : Instance :=
  emit (Dismissed id) st.

(** The arrow passed to [start] by [hideModal] (lines 87-92). *)
Definition hide_finished (id : nat) (finished : bool) (st : Instance) : Instance :=
  if finished then setRendered false (onDismissCallback id st) else st.

Definition invoke (r : Animated.Run) (finished : bool) (st : Instance) : Instance :=
  let st1 := emit (Ended (Animated.run_id r) finished) st in
  match Animated.run_callback r with
  | no_callback => st1
  | hide_callback => hide_finished (Animated.run_id r) finished st1
  end.

(** Starting a run on a value stops the run in flight on that value, whose
    callback receives [finished = false]. *)
Definition stopAnimation (st : Instance) : Instance :=
  match Animated.animation (opacity st) with
  | None => st
  | Some r =>
      invoke r false
        (set_opacity {| Animated.settled := Animated.settled (opacity st);
                        Animated.animation := None |} st)
  end.

Definition timing_start (c : Animated.TimingConfig) (cb : EndCallback)
    (st : Instance) : Instance :=
  new_run c cb (stopAnimation st).

Definition show_config (s : number) : Animated.TimingConfig :=
  {| Animated.toValue := 1%float;
     Animated.duration := (s * DEFAULT_DURATION)%float;
     Animated.easing := Easing.out Easing.cubic;
     Animated.useNativeDriver := true |}.

Definition hide_config (s : number) : Animated.TimingConfig :=
  {| Animated.toValue := 0%float;
     Animated.duration := (s * DEFAULT_DURATION)%float;
     Animated.easing := Easing.out Easing.cubic;
     Animated.useNativeDriver := true |}.

(** [showModal] (lines 67-74); [s] is the [scale] it closes over. *)
Definition showModal (s : number) (st : Instance) : Instance :=
  timing_start (show_config s) no_callback st.

(** [hideModal] (lines 76-93); [f] is the closure being called. *)
Definition hideModal (f : HideModal) (st : Instance) : Instance :=
  if negb (fn_rendered f) then st
  else if negb (visibleRef st) then st
  else timing_start (hide_config (fn_scale f)) hide_callback
         (set_visibleRef false st).

(** [onHardwareBackPress] (lines 100-105): the returned boolean and the new
    state. *)
Definition onHardwareBackPress (l : Listener) (st : Instance) : bool * Instance :=
  (true,
   if l_dismissable l || l_dismissableBackButton l
   then hideModal (l_hideModal l) st
   else st).

(** ** Render and commit *)

(** [React.useCallback(..., [onDismissCallback, opacity, scale, rendered])]:
    the cell keeps its closure while the dependencies are unchanged. *)
Definition useCallback_hideModal (p : ModalProps) (st : Instance) : Instance :=
  let f := hideModal_memo st in
  if Object_is (fn_scale f) (scale p) && Bool.eqb (fn_rendered f) (rendered st)
  then st
  else new_hideModal (scale p) (rendered st) st.

(** The function body up to the return.  [setRendered(true)] during render
    (lines 63-65) makes the framework discard the pass and run the body again
    with the new state; the hook cells written by the discarded pass stay. *)
Definition render_phase (p : ModalProps) (st : Instance) : Instance :=
  let st1 := useCallback_hideModal p st in
  if visible p && negb (rendered st1)
  then useCallback_hideModal p (setRendered true st1)
  else st1.

(** What the component returns (lines 129-173), reduced to the attributes
    that carry behaviour. *)
Inductive PointerEvents := pe_auto | pe_none.

Record Tree := {
  pointerEvents : PointerEvents;
  onAccessibilityEscape : HideModal;
  backdrop_disabled : bool;
  backdrop_onPress : option HideModal
}.

Definition Modal_return (p : ModalProps) (r : bool) (f : HideModal) : option Tree :=
  if negb r then None
  else Some {| pointerEvents := if visible p then pe_auto else pe_none;
               onAccessibilityEscape := f;
               backdrop_disabled := negb (dismissable p) || negb r;
               backdrop_onPress := if dismissable p && r then Some f else None |}.

(** The tree on screen: that of the last committed render. *)
Definition output (st : Instance) : option Tree :=
  if mounted st
  then Modal_return (props st) (rendered st) (hideModal_memo st)
  else None.

(** Effect of lines 53-55, run after every commit. *)
Definition effect_visibleRef (p : ModalProps) (st : Instance) : Instance :=
  set_visibleRef (visible p) st.

(** Dependency list [[dismissable, dismissableBackButton, hideModal, visible]]
    of the subscription effect, compared with that of the last commit. *)
Definition deps_changed (p0 : ModalProps) (f0 : HideModal)
    (p : ModalProps) (f : HideModal) : bool :=
  negb (Bool.eqb (dismissable p0) (dismissable p)
        && Bool.eqb (dismissableBackButton p0) (dismissableBackButton p)
        && Nat.eqb (fn_id f0) (fn_id f)
        && Bool.eqb (visible p0) (visible p)).

(** Modelled from the spec: [utils/addEventListener] and [utils/BackHandler]
    are not among the sources ("a cross-platform hardware back-button event
    source"); a subscription holds the listener until [remove()]. *)
Definition addEventListener (l : Listener) (st : Instance) : Instance :=
  emit Subscribed (set_subscription (Some l) st).

(** Cleanup [() => subscription.remove()] returned by the effect; when the
    effect returned [undefined] there is nothing to clean up. *)
Definition effect_backHandler_cleanup (st : Instance) : Instance :=
  match subscription st with
  | Some _ => emit Removed (set_subscription None st)
  | None => st
  end.

(** Effect of lines 95-114. *)
Definition effect_backHandler (p : ModalProps) (st : Instance) : Instance :=
  if negb (visible p) then st
  else addEventListener
         {| l_dismissable := dismissable p;
            l_dismissableBackButton := dismissableBackButton p;
            l_hideModal := hideModal_memo st |} st.

(** [prevVisible.current !== visible] *)
Definition transition_detected (p : ModalProps) (st : Instance) : bool :=
  match prevVisible st with
  | Some v => negb (Bool.eqb v (visible p))
  | None => true
  end.

(** Effect of lines 118-127, run after every commit. *)
Definition effect_transition (p : ModalProps) (st : Instance) : Instance :=
  set_prevVisible (Some (visible p))
    (if transition_detected p st
     then if visible p then showModal (scale p) st
          else hideModal (hideModal_memo st) st
     else st).

(** Commit of a render: cleanups of the effects whose dependencies changed,
    then the effects in the order of their declaration. *)
Definition commit (changed : bool) (p : ModalProps) (st : Instance) : Instance :=
  let st1 := if changed then effect_backHandler_cleanup st else st in
  let st2 := effect_visibleRef p st1 in
  let st3 := if changed then effect_backHandler p st2 else st2 in
  set_props p (effect_transition p st3).

(** First render of a new instance. *)
Definition mount (p : ModalProps) : Instance :=
  commit true p
    {| mounted := true;
       props := p;
       visibleRef := visible p;
       rendered := visible p;
       prevVisible := None;
       opacity := {| Animated.settled := if visible p then 1%float else 0%float;
                     Animated.animation := None |};
       hideModal_memo := {| fn_id := 0; fn_scale := scale p;
                            fn_rendered := visible p |};
       subscription := None;
       next_fn := 1;
       next_run := 0;
       trace := [] |}.

(** Re-render of a mounted instance with props [p]. *)
Definition update (p : ModalProps) (st : Instance) : Instance :=
  let st1 := render_phase p st in
  commit (deps_changed (props st) (hideModal_memo st) p (hideModal_memo st1)) p st1.

(** Destruction of the instance: the animated views detach from the value,
    which stops the run in flight (its callback receives [finished = false]),
    and the effect cleanups run. *)
Definition unmount (st : Instance) : Instance :=
  set_mounted false (effect_backHandler_cleanup (stopAnimation st)).

(** ** Events delivered by the host *)

Inductive Event :=
| Render (p : ModalProps)            (* the owner re-renders the component *)
| HardwareBackPress
| BackdropPress
| AccessibilityEscape
| AnimationEnd (reaction : option ModalProps)
    (* the run in flight reaches its target; [reaction] is the props the
       owner passes if its onDismiss handler changed them *)
| Unmount.

(** Modelled from the spec: the back-button event source calls the
    registered listener and reports whether the signal was consumed. *)
Definition hardwareBackPress (st : Instance) : bool * Instance :=
  match subscription st with
  | Some l => onHardwareBackPress l st
  | None => (false, st)
  end.

(** A press reaches the backdrop only through a root with
    [pointerEvents = 'auto'] and an enabled pressable. *)
Definition backdropPress (st : Instance) : Instance :=
  match output st with
  | None => st
  | Some t =>
      match pointerEvents t with
      | pe_none => st
      | pe_auto =>
          if backdrop_disabled t then st
          else match backdrop_onPress t with
               | Some f => hideModal f st
               | None => st
               end
      end
  end.

Definition accessibilityEscape (st : Instance) : Instance :=
  match output st with
  | None => st
  | Some t => hideModal (onAccessibilityEscape t) st
  end.

(** Natural completion of the run in flight: the value settles at the target
    and the callback receives [finished = true]; the state update made by the
    callback is followed by a re-render. *)
Definition animationEnd (reaction : option ModalProps) (st : Instance) : Instance :=
  match Animated.animation (opacity st) with
  | None => st
  | Some r =>
      let st1 :=
        invoke r true
          (set_opacity
             {| Animated.settled := Animated.toValue (Animated.run_config r);
                Animated.animation := None |} st) in
      match Animated.run_callback r with
      | no_callback => st1
      | hide_callback =>
          if mounted st1
          then update (match reaction with Some p => p | None => props st1 end) st1
          else st1
      end
  end.

Definition step (e : Event) (st : Instance) : Instance :=
  match e with
  | Render p => if mounted st then update p st else st
  | HardwareBackPress => snd (hardwareBackPress st)
  | BackdropPress => backdropPress st
  | AccessibilityEscape => accessibilityEscape st
  | AnimationEnd reaction => animationEnd reaction st
  | Unmount => if mounted st then unmount st else st
  end.

Definition run (es : list Event) (st : Instance) : Instance :=
  fold_left (fun s e => step e s) es st.

(** * Specification vocabulary *)

(** ** Normal forms used in the proofs *)

Definition set_trace (t : list Action) (st : Instance) : Instance :=
  {| mounted := mounted st; props := props st; visibleRef := visibleRef st;
     rendered := rendered st; prevVisible := prevVisible st;
     opacity := opacity st; hideModal_memo := hideModal_memo st;
     subscription := subscription st; next_fn := next_fn st;
     next_run := next_run st; trace := t |}.

Definition set_memo (fn : HideModal * nat) (st : Instance) : Instance :=
  {| mounted := mounted st; props := props st; visibleRef := visibleRef st;
     rendered := rendered st; prevVisible := prevVisible st;
     opacity := opacity st; hideModal_memo := fst fn;
     subscription := subscription st; next_fn := snd fn;
     next_run := next_run st; trace := trace st |}.

Definition idle (o : Animated.Value) : Animated.Value :=
  {| Animated.settled := Animated.settled o; Animated.animation := None |}.

(** Actions of stopping whatever runs on [o]. *)
Definition stop_actions (o : Animated.Value) : list Action :=
  match Animated.animation o with
  | Some r => [Ended (Animated.run_id r) false]
  | None => []
  end.

(** Value and actions of starting run [n] with [c] and [cb] on [o]. *)
Definition started (o : Animated.Value) (n : nat)
    (c : Animated.TimingConfig) (cb : EndCallback) : Animated.Value :=
  {| Animated.settled := Animated.settled o;
     Animated.animation :=
       Some {| Animated.run_id := n; Animated.run_config := c;
               Animated.run_callback := cb |} |}.

Definition start_actions (o : Animated.Value) (n : nat)
    (c : Animated.TimingConfig) (cb : EndCallback) : list Action :=
  Started n c cb :: stop_actions o.

(** Actions of a run that reaches its target. *)
Definition finish_actions (r : Animated.Run) : list Action :=
  match Animated.run_callback r with
  | no_callback => [Ended (Animated.run_id r) true]
  | hide_callback => [Dismissed (Animated.run_id r); Ended (Animated.run_id r) true]
  end.

(** The callback cell and the identity counter after one and after both
    passes of the function body. *)
Definition use_memo (s : number) (r : bool) (fn : HideModal * nat) : HideModal * nat :=
  if Object_is (fn_scale (fst fn)) s && Bool.eqb (fn_rendered (fst fn)) r
  then fn
  else ({| fn_id := snd fn; fn_scale := s; fn_rendered := r |}, S (snd fn)).

Definition render_memo (p : ModalProps) (r : bool) (fn : HideModal * nat) : HideModal * nat :=
  let fn1 := use_memo (scale p) r fn in
  if visible p && negb r then use_memo (scale p) true fn1 else fn1.

Definition listener_of (p : ModalProps) (f : HideModal) : Listener :=
  {| l_dismissable := dismissable p;
     l_dismissableBackButton := dismissableBackButton p;
     l_hideModal := f |}.

(** The subscription effect with its cleanup. *)
Definition resubscribe (changed : bool) (p : ModalProps) (st : Instance) : Instance :=
  if changed then effect_backHandler p (effect_backHandler_cleanup st) else st.

Definition resub_actions (changed : bool) (p : ModalProps) (st : Instance) : list Action :=
  if changed
  then (if visible p then [Subscribed] else [])
       ++ (match subscription st with Some _ => [Removed] | None => [] end)
  else [].

(** Whether the transition effect of a commit with props [p] calls
    [showModal]. *)
Definition shows (p : ModalProps) (st : Instance) : bool :=
  transition_detected p st && visible p.

Definition show_actions (p : ModalProps) (st : Instance) : list Action :=
  if shows p st
  then start_actions (opacity st) (next_run st) (show_config (scale p)) no_callback
  else [].

(** ** Invariant of the hook cells *)

Record Inv (st : Instance) : Prop := {
  inv_rendered : visible (props st) = true -> rendered st = true;
  inv_ref : visibleRef st = true -> visible (props st) = true;
  inv_memo_r : fn_rendered (hideModal_memo st) = rendered st;
  inv_memo_s : fn_scale (hideModal_memo st) = scale (props st);
  inv_fn : fn_id (hideModal_memo st) < next_fn st;
  inv_sub :
    subscription st =
    if mounted st && visible (props st)
    then Some (listener_of (props st) (hideModal_memo st))
    else None;
  inv_prev : prevVisible st = Some (visible (props st))
}.

(** ** Invariant of the animated value and the trace *)

Definition count (f : Action -> bool) (t : list Action) : nat :=
  length (filter f t).

Definition is_dismissed (id : nat) (a : Action) : bool :=
  match a with Dismissed i => Nat.eqb i id | _ => false end.

Definition any_dismissed (a : Action) : bool :=
  match a with Dismissed _ => true | _ => false end.

Definition hide_started (a : Action) : bool :=
  match a with Started _ _ hide_callback => true | _ => false end.

Definition any_started (a : Action) : bool :=
  match a with Started _ _ _ => true | _ => false end.

Definition running_hide (o : Animated.Value) : nat :=
  match Animated.animation o with
  | Some r => match Animated.run_callback r with hide_callback => 1 | no_callback => 0 end
  | None => 0
  end.

Definition bounded (n : nat) (a : Action) : Prop :=
  match a with
  | Started id _ _ | Ended id _ | Dismissed id => id < n
  | Subscribed | Removed => True
  end.

Definition neutral (a : Action) : Prop :=
  match a with Subscribed | Removed => True | _ => False end.

(** The two shapes of a run: what [showModal] and what [hideModal] start. *)
Definition modal_run (c : Animated.TimingConfig) (cb : EndCallback) : Prop :=
  exists s, (c = show_config s /\ cb = no_callback)
         \/ (c = hide_config s /\ cb = hide_callback).

Record TI (o : Animated.Value) (n : nat) (t : list Action) : Prop := {
  t_bounded : Forall (bounded n) t;
  t_running : forall r, Animated.animation o = Some r ->
    Animated.run_id r < n
    /\ (forall b, ~ In (Ended (Animated.run_id r) b) t)
    /\ In (Started (Animated.run_id r) (Animated.run_config r) (Animated.run_callback r)) t;
  t_dismissed : forall id, In (Dismissed id) t ->
    In (Ended id true) t /\ exists c, In (Started id c hide_callback) t;
  t_once : forall id, count (is_dismissed id) t <= 1;
  t_ended : forall id, In (Ended id true) t -> In (Ended id false) t -> False;
  t_count : count any_dismissed t + running_hide o <= count hide_started t;
  t_shape : forall id c cb, In (Started id c cb) t -> modal_run c cb
}.

Definition TInv (st : Instance) : Prop :=
  TI (opacity st) (next_run st) (trace st).

(** ** Vocabulary of the claims *)

(** The actions a step added to the trace. *)
Definition emitted (st st' : Instance) : list Action :=
  firstn (length (trace st') - length (trace st)) (trace st').

(** The events that ask for a hide: the three dismissal requests and a
    render whose intent is false. *)
Definition dismissal_trigger (e : Event) : Prop :=
  match e with
  | HardwareBackPress | BackdropPress | AccessibilityEscape => True
  | Render p => visible p = false
  | AnimationEnd _ | Unmount => False
  end.

(** Started hide runs plus one while the flag is still up: no dismissal
    trigger increases this. *)
Definition hide_budget (st : Instance) : nat :=
  count hide_started (trace st) + (if visibleRef st then 1 else 0).

(** A run of [hideModal] is in flight. *)
Definition hiding (st : Instance) (r : Animated.Run) : Prop :=
  Animated.animation (opacity st) = Some r
  /\ Animated.run_callback r = hide_callback.

(** The consequence drawn in C5 as the specification words it: while a hide
    run is in flight no dismissal trigger starts another. *)
Definition no_duplicate_hide_sequences : Prop :=
  forall p es e r, let st := run es (mount p) in
  hiding st r -> dismissal_trigger e ->
  count hide_started (trace (step e st)) = count hide_started (trace st).

(** C3 as the specification words it: no output whenever the intent is
    false. *)
Definition no_output_while_intent_false : Prop :=
  forall p es, let st := run es (mount p) in
  visible (props st) = false -> output st = None.

(** C8 as the specification words it: a render acquires the subscription
    exactly when the intent becomes true and releases it exactly when the
    intent becomes false. *)
Definition subscription_in_step_with_intent : Prop :=
  forall p es p', let st := run es (mount p) in
  mounted st = true ->
  (In Subscribed (emitted st (step (Render p') st))
     <-> visible (props st) = false /\ visible p' = true)
  /\ (In Removed (emitted st (step (Render p') st))
     <-> visible (props st) = true /\ visible p' = false).

(** Props used in examples: everything left at its default, scale 1. *)
Definition sample_props (v : bool) : ModalProps :=
  {| p_dismissable := None; p_dismissableBackButton := None;
     visible := v; theme := {| animation_scale := 1%float |} |}.

(** The same with [dismissable = false]. *)
Definition undismissable_props (v : bool) : ModalProps :=
  {| p_dismissable := Some false; p_dismissableBackButton := None;
     visible := v; theme := {| animation_scale := 1%float |} |}.

(** ** Vocabulary of the further properties *)

Definition is_subscribed (a : Action) : bool :=
  match a with Subscribed => true | _ => false end.

Definition is_removed (a : Action) : bool :=
  match a with Removed => true | _ => false end.

(** Number of listeners the instance holds. *)
Definition held (st : Instance) : nat :=
  match subscription st with Some _ => 1 | None => 0 end.

(** Events of a run in which the owner only changes props and animations
    only complete: no back press, no backdrop press, no escape, no unmount. *)
Definition intent_only (e : Event) : Prop :=
  match e with
  | Render _ | AnimationEnd _ => True
  | HardwareBackPress | BackdropPress | AccessibilityEscape | Unmount => False
  end.

(** The value at rest at [v]. *)
Definition rest (v : number) : Animated.Value :=
  {| Animated.settled := v; Animated.animation := None |}.

(** The test identifiers of the returned tree (lines 138, 153, 162 and 165):
    [testID], which defaults to ['modal'], and the template literals built
    on it. *)
Record TestIDs := {
  id_root : String.string;
  id_backdrop : String.string;
  id_wrapper : String.string;
  id_surface : String.string
}.

Definition Modal_testIDs (testID : option String.string) : TestIDs :=
  let t := match testID with Some s => s | None => "modal"%string end in
  {| id_root := t;
     id_backdrop := String.append t "-backdrop";
     id_wrapper := String.append t "-wrapper";
     id_surface := String.append t "-surface" |}.

(** The value rests at 0 or 1, and at 0 with nothing in flight while nothing
    is rendered. *)
Definition at_rest_ok (st : Instance) : Prop :=
  (Animated.settled (opacity st) = 0%float \/ Animated.settled (opacity st) = 1%float)
  /\ (rendered st = false -> opacity st = rest 0%float).

(** While the intent is true the flag is down only during a hide run. *)
Definition flag_ok (st : Instance) : Prop :=
  mounted st = true -> visible (props st) = true -> visibleRef st = false ->
  exists r, hiding st r.

(** As many listeners added as removed, plus the one held. *)
Definition balanced (st : Instance) : Prop :=
  count is_subscribed (trace st) = count is_removed (trace st) + held st.

(** No hide run was ever started, and the instance is mounted. *)
Definition never_hidden (st : Instance) : Prop :=
  mounted st = true /\ count hide_started (trace st) = 0.

(** * Lemmas *)

Lemma Object_is_eq a b : Object_is a b = true -> a = b.
Proof. apply FloatAxioms.Leibniz.eqb_spec. Qed.

Lemma Object_is_refl a : Object_is a a = true.
Proof. now apply FloatAxioms.Leibniz.eqb_spec. Qed.

Lemma stopAnimation_eq st :
  stopAnimation st = set_trace (stop_actions (opacity st) ++ trace st) (set_opacity (idle (opacity st)) st).
Proof.
  destruct st as [m p vr r pv [s a] f sub nf nr t].
  unfold stopAnimation, stop_actions, invoke, hide_finished; simpl.
  destruct a as [[id c []]|]; reflexivity.
Qed.

Lemma showModal_eq s st :
  showModal s st =
  new_run (show_config s) no_callback
    (set_trace (stop_actions (opacity st) ++ trace st) (set_opacity (idle (opacity st)) st)).
Proof. unfold showModal, timing_start. now rewrite stopAnimation_eq. Qed.

Lemma hideModal_eq f st :
  hideModal f st =
  if fn_rendered f && visibleRef st
  then new_run (hide_config (fn_scale f)) hide_callback
         (set_trace (stop_actions (opacity st) ++ trace st)
            (set_opacity (idle (opacity st)) (set_visibleRef false st)))
  else st.
Proof.
  unfold hideModal, timing_start. rewrite stopAnimation_eq.
  destruct (fn_rendered f), (visibleRef st); reflexivity.
Qed.

Lemma hideModal_guard f st :
  fn_rendered f = false \/ visibleRef st = false -> hideModal f st = st.
Proof.
  unfold hideModal. intros [-> | ->]; simpl; [reflexivity|].
  now destruct (fn_rendered f).
Qed.

Lemma unmount_eq st :
  unmount st =
  set_mounted false
    (set_subscription None
       (set_trace
          ((match subscription st with Some _ => [Removed] | None => [] end)
           ++ stop_actions (opacity st) ++ trace st)
          (set_opacity (idle (opacity st)) st))).
Proof.
  unfold unmount. rewrite stopAnimation_eq. unfold effect_backHandler_cleanup.
  destruct st as [m p vr r pv o f [l|] nf nr t]; reflexivity.
Qed.

Lemma render_phase_eq p st :
  mounted st = true ->
  render_phase p st =
  set_memo (render_memo p (rendered st) (hideModal_memo st, next_fn st))
    (set_rendered (rendered st || visible p) st).
Proof.
  destruct st as [m q vr r pv o f sub nf nr t]; simpl. intros ->.
  unfold render_phase, render_memo, useCallback_hideModal, use_memo, setRendered; simpl.
  destruct (Object_is (fn_scale f) (scale p)) eqn:E1, (fn_rendered f) eqn:E2, r, (visible p) eqn:E3;
    simpl; rewrite ?E1, ?E2, ?Object_is_refl; simpl; try reflexivity; destruct f; reflexivity.
Qed.

(** Pure facts about the callback cell. *)
Lemma use_memo_deps s r fn :
  fn_scale (fst (use_memo s r fn)) = s /\ fn_rendered (fst (use_memo s r fn)) = r.
Proof.
  unfold use_memo.
  destruct (Object_is (fn_scale (fst fn)) s) eqn:E1; simpl; auto.
  destruct (Bool.eqb (fn_rendered (fst fn)) r) eqn:E2; simpl; auto.
  apply Object_is_eq in E1. apply eqb_prop in E2. auto.
Qed.

Lemma use_memo_fresh s r fn :
  fn_id (fst fn) < snd fn ->
  fn_id (fst (use_memo s r fn)) < snd (use_memo s r fn)
  /\ snd fn <= snd (use_memo s r fn)
  /\ (fn_id (fst (use_memo s r fn)) = fn_id (fst fn) -> fst (use_memo s r fn) = fst fn).
Proof.
  unfold use_memo. intros H.
  destruct (Object_is (fn_scale (fst fn)) s && Bool.eqb (fn_rendered (fst fn)) r);
    simpl; repeat split; auto; lia.
Qed.

Lemma use_memo_same s r fn :
  fn_scale (fst fn) = s -> fn_rendered (fst fn) = r -> use_memo s r fn = fn.
Proof.
  unfold use_memo. intros -> ->. now rewrite Object_is_refl, eqb_reflx.
Qed.

Lemma render_memo_deps p r fn :
  fn_scale (fst (render_memo p r fn)) = scale p
  /\ fn_rendered (fst (render_memo p r fn)) = r || visible p.
Proof.
  unfold render_memo.
  destruct (visible p), r; simpl;
    match goal with |- context [fst (use_memo ?s ?r ?f)] =>
      destruct (use_memo_deps s r f) as [-> ->] end; auto.
Qed.

Lemma render_memo_fresh p r fn :
  fn_id (fst fn) < snd fn ->
  fn_id (fst (render_memo p r fn)) < snd (render_memo p r fn)
  /\ (fn_id (fst (render_memo p r fn)) = fn_id (fst fn) -> fst (render_memo p r fn) = fst fn).
Proof.
  unfold render_memo. intros H.
  destruct (use_memo_fresh (scale p) r fn H) as (H1 & H2 & H3).
  destruct (visible p && negb r); [|auto].
  destruct (use_memo_fresh (scale p) true _ H1) as (H4 & H5 & H6).
  split; [assumption|]. intros E.
  unfold use_memo in *.
  destruct (Object_is (fn_scale (fst fn)) (scale p) && Bool.eqb (fn_rendered (fst fn)) r);
    simpl in *;
    match goal with |- context [if ?b then _ else _] => destruct b end;
    simpl in *; auto; lia.
Qed.

Lemma render_memo_same p r fn :
  fn_scale (fst fn) = scale p -> fn_rendered (fst fn) = r ->
  (visible p = true -> r = true) ->
  render_memo p r fn = fn.
Proof.
  intros Hs Hr Hv. unfold render_memo.
  rewrite (use_memo_same (scale p) r fn) by assumption.
  destruct (visible p); simpl; [|reflexivity].
  rewrite Hv by reflexivity. reflexivity.
Qed.

(** Normal form of a commit: after the first effect the guard of
    [hideModal] is closed whenever the intent is false. *)
Lemma commit_eq changed p st :
  commit changed p st =
  set_props p
    (set_prevVisible (Some (visible p))
       (if shows p st
        then showModal (scale p) (resubscribe changed p (set_visibleRef (visible p) st))
        else resubscribe changed p (set_visibleRef (visible p) st))).
Proof.
  unfold commit, effect_transition, resubscribe, effect_visibleRef, shows.
  assert (E : (if changed then
                 effect_backHandler p (set_visibleRef (visible p)
                   (if changed then effect_backHandler_cleanup st else st))
               else set_visibleRef (visible p)
                   (if changed then effect_backHandler_cleanup st else st))
              = if changed
                then effect_backHandler p (effect_backHandler_cleanup (set_visibleRef (visible p) st))
                else set_visibleRef (visible p) st).
  { destruct changed; [|reflexivity].
    unfold effect_backHandler_cleanup; simpl. now destruct (subscription st). }
  rewrite E. clear E.
  set (X := if changed then _ else _).
  assert (Hd : transition_detected p X = transition_detected p st).
  { subst X. unfold transition_detected, effect_backHandler, effect_backHandler_cleanup, addEventListener.
    destruct changed; [|reflexivity].
    destruct (visible p); simpl; destruct (subscription st); reflexivity. }
  assert (Hv : visibleRef X = visible p).
  { subst X. unfold effect_backHandler, effect_backHandler_cleanup, addEventListener.
    destruct changed; [|reflexivity].
    destruct (visible p); simpl; destruct (subscription st); reflexivity. }
  rewrite Hd. destruct (transition_detected p st); simpl; [|reflexivity].
  destruct (visible p) eqn:V; [reflexivity|].
  rewrite hideModal_guard; auto.
Qed.

(** ** The hook cells *)

Lemma commit_fields changed p st :
  mounted (commit changed p st) = mounted st
  /\ props (commit changed p st) = p
  /\ visibleRef (commit changed p st) = visible p
  /\ rendered (commit changed p st) = rendered st
  /\ prevVisible (commit changed p st) = Some (visible p)
  /\ hideModal_memo (commit changed p st) = hideModal_memo st
  /\ next_fn (commit changed p st) = next_fn st
  /\ subscription (commit changed p st) =
     if changed
     then if visible p then Some (listener_of p (hideModal_memo st)) else None
     else subscription st.
Proof.
  rewrite commit_eq, showModal_eq.
  unfold resubscribe, effect_backHandler, effect_backHandler_cleanup, addEventListener.
  destruct st as [m q vr r pv o f sub nf nr t]; simpl.
  unfold shows; destruct (transition_detected p _), (visible p), changed, sub; simpl;
    repeat split; reflexivity.
Qed.

Lemma update_fields p st :
  mounted st = true ->
  mounted (update p st) = true
  /\ props (update p st) = p
  /\ visibleRef (update p st) = visible p
  /\ rendered (update p st) = rendered st || visible p
  /\ prevVisible (update p st) = Some (visible p)
  /\ hideModal_memo (update p st)
     = fst (render_memo p (rendered st) (hideModal_memo st, next_fn st))
  /\ next_fn (update p st)
     = snd (render_memo p (rendered st) (hideModal_memo st, next_fn st)).
Proof.
  intros Hm. unfold update.
  match goal with |- context [commit ?c p ?s] =>
    destruct (commit_fields c p s) as (H1 & H2 & H3 & H4 & H5 & H6 & H7 & _) end.
  rewrite H1, H2, H3, H4, H5, H6, H7.
  rewrite render_phase_eq by assumption. simpl. auto 10.
Qed.

Lemma deps_unchanged p0 f0 p f :
  deps_changed p0 f0 p f = false ->
  dismissable p0 = dismissable p
  /\ dismissableBackButton p0 = dismissableBackButton p
  /\ fn_id f0 = fn_id f
  /\ visible p0 = visible p.
Proof.
  unfold deps_changed. intros H. apply negb_false_iff in H.
  repeat (apply andb_prop in H as [H ?]).
  repeat split; try (now apply eqb_prop). now apply Nat.eqb_eq.
Qed.

Lemma update_subscription p st :
  mounted st = true ->
  fn_id (hideModal_memo st) < next_fn st ->
  subscription st =
    (if visible (props st) then Some (listener_of (props st) (hideModal_memo st)) else None) ->
  subscription (update p st) =
    if visible p then Some (listener_of p (hideModal_memo (update p st))) else None.
Proof.
  intros Hm Hf Hs.
  destruct (update_fields p st Hm) as (_ & _ & _ & _ & _ & -> & _).
  unfold update.
  match goal with |- context [commit ?c p ?s] =>
    destruct (commit_fields c p s) as (_ & _ & _ & _ & _ & _ & _ & ->) end.
  rewrite render_phase_eq by assumption. simpl.
  destruct (deps_changed _ _ _ _) eqn:D; [reflexivity|].
  apply deps_unchanged in D as (D1 & D2 & D3 & D4).
  destruct (render_memo_fresh p (rendered st) (hideModal_memo st, next_fn st) Hf) as [_ Hid].
  simpl in Hid. rewrite Hid by (symmetry; exact D3).
  rewrite Hs, D4. unfold listener_of. now rewrite D1, D2.
Qed.

Lemma update_Inv p st :
  mounted st = true ->
  fn_id (hideModal_memo st) < next_fn st ->
  subscription st =
    (if visible (props st) then Some (listener_of (props st) (hideModal_memo st)) else None) ->
  Inv (update p st).
Proof.
  intros Hm Hf Hs.
  pose proof (update_subscription p st Hm Hf Hs) as Hsub.
  destruct (update_fields p st Hm) as (H1 & H2 & H3 & H4 & H5 & H6 & H7).
  destruct (render_memo_deps p (rendered st) (hideModal_memo st, next_fn st)) as [Hd1 Hd2].
  destruct (render_memo_fresh p (rendered st) (hideModal_memo st, next_fn st) Hf) as [Hfr _].
  split.
  - rewrite H2, H4. intros ->. apply orb_true_r.
  - rewrite H2, H3. auto.
  - rewrite H6, H4. exact Hd2.
  - rewrite H6, H2. exact Hd1.
  - rewrite H6, H7. exact Hfr.
  - rewrite Hsub, H1, H2. reflexivity.
  - rewrite H5, H2. reflexivity.
Qed.

Lemma mount_Inv p : Inv (mount p).
Proof.
  unfold mount.
  match goal with |- Inv (commit true p ?s) =>
    destruct (commit_fields true p s) as (H1 & H2 & H3 & H4 & H5 & H6 & H7 & H8) end.
  split; rewrite ?H1, ?H2, ?H3, ?H4, ?H5, ?H6, ?H7, ?H8; simpl; auto.
Qed.

Lemma hideModal_Inv f st : Inv st -> Inv (hideModal f st).
Proof.
  intros [I1 I2 I3 I4 I5 I6 I7]. rewrite hideModal_eq.
  destruct (fn_rendered f && visibleRef st); split; simpl; auto.
  discriminate.
Qed.

Lemma Inv_frame st st' :
  mounted st' = mounted st -> props st' = props st ->
  (visibleRef st' = true -> visibleRef st = true) ->
  rendered st' = rendered st -> prevVisible st' = prevVisible st ->
  hideModal_memo st' = hideModal_memo st -> subscription st' = subscription st ->
  next_fn st' = next_fn st ->
  Inv st -> Inv st'.
Proof.
  intros E1 E2 E3 E4 E5 E6 E7 E8 [I1 I2 I3 I4 I5 I6 I7].
  split; rewrite ?E1, ?E2, ?E4, ?E5, ?E6, ?E7, ?E8; auto.
Qed.

Lemma unmount_Inv st : Inv st -> Inv (unmount st).
Proof.
  intros [I1 I2 I3 I4 I5 I6 I7]. rewrite unmount_eq.
  split; simpl; auto.
Qed.

Lemma Inv_sub_mounted st :
  Inv st -> mounted st = true ->
  subscription st =
    (if visible (props st) then Some (listener_of (props st) (hideModal_memo st)) else None).
Proof. intros I Hm. rewrite (inv_sub st I), Hm. reflexivity. Qed.

Lemma invoke_true_eq r st :
  invoke r true st =
  match Animated.run_callback r with
  | no_callback => emit (Ended (Animated.run_id r) true) st
  | hide_callback =>
      setRendered false
        (emit (Dismissed (Animated.run_id r)) (emit (Ended (Animated.run_id r) true) st))
  end.
Proof. reflexivity. Qed.

Lemma animationEnd_Inv reaction st : Inv st -> Inv (animationEnd reaction st).
Proof.
  intros I. unfold animationEnd.
  destruct (Animated.animation (opacity st)) as [r|] eqn:A; [|assumption].
  rewrite invoke_true_eq.
  destruct (Animated.run_callback r).
  - revert I. apply Inv_frame; reflexivity || auto.
  - unfold setRendered; simpl.
    destruct (mounted st) eqn:Hm; simpl; rewrite Hm.
    + apply update_Inv; simpl; auto using inv_fn.
      now apply Inv_sub_mounted.
    + revert I. apply Inv_frame; reflexivity || auto.
Qed.

Lemma step_Inv e st : Inv st -> Inv (step e st).
Proof.
  intros I. destruct e as [p| | | |reaction|]; simpl.
  - destruct (mounted st) eqn:Hm; [|assumption].
    apply update_Inv; auto using inv_fn, Inv_sub_mounted.
  - unfold hardwareBackPress, onHardwareBackPress.
    destruct (subscription st) as [l|]; simpl; [|assumption].
    destruct (l_dismissable l || l_dismissableBackButton l); auto using hideModal_Inv.
  - unfold backdropPress.
    destruct (output st) as [t|]; [|assumption].
    destruct (pointerEvents t); [|assumption].
    destruct (backdrop_disabled t); [assumption|].
    destruct (backdrop_onPress t); auto using hideModal_Inv.
  - unfold accessibilityEscape.
    destruct (output st) as [t|]; auto using hideModal_Inv.
  - now apply animationEnd_Inv.
  - destruct (mounted st); auto using unmount_Inv.
Qed.

Lemma run_app es1 es2 st : run (es1 ++ es2) st = run es2 (run es1 st).
Proof. unfold run. apply fold_left_app. Qed.

Lemma run_Inv es st : Inv st -> Inv (run es st).
Proof.
  revert st. induction es as [|e es IH]; intros st I; simpl; auto using step_Inv.
Qed.

Lemma reachable_Inv p es : Inv (run es (mount p)).
Proof. apply run_Inv, mount_Inv. Qed.

(** ** The animated value and the trace *)

Lemma count_cons f a t : count f (a :: t) = (if f a then 1 else 0) + count f t.
Proof. unfold count; simpl. now destruct (f a). Qed.

Lemma bounded_mono n m a : n <= m -> bounded n a -> bounded m a.
Proof. destruct a; simpl; auto; lia. Qed.

Lemma bounded_fresh n t id :
  Forall (bounded n) t -> n <= id ->
  (forall c cb, ~ In (Started id c cb) t)
  /\ (forall b, ~ In (Ended id b) t)
  /\ ~ In (Dismissed id) t.
Proof.
  intros F Hn. rewrite Forall_forall in F.
  repeat split; repeat intro;
    match goal with H : In _ t |- _ => apply F in H; simpl in H; lia end.
Qed.

Lemma TI_neutral o n t a : neutral a -> TI o n t -> TI o n (a :: t).
Proof.
  intros Ha [T1 T2 T3 T4 T5 T6 T7].
  split.
  - constructor; [destruct a; simpl in *; tauto | assumption].
  - intros r Hr. destruct (T2 r Hr) as (R1 & R2 & R3).
    repeat split; [assumption| |now right].
    intros b [E|E]; [subst a; exact Ha | exact (R2 b E)].
  - intros id [E|E]; [subst a; contradiction|].
    destruct (T3 id E) as (D1 & c & D2). split; [now right|]. exists c. now right.
  - intros id. rewrite count_cons.
    replace (is_dismissed id a) with false by (destruct a; simpl in *; tauto).
    apply T4.
  - intros id [E|E] [E'|E']; try (subst a; contradiction). eauto.
  - rewrite !count_cons.
    replace (any_dismissed a) with false by (destruct a; simpl in *; tauto).
    replace (hide_started a) with false by (destruct a; simpl in *; tauto).
    exact T6.
  - intros id c cb [E|E]; [subst a; contradiction | eauto].
Qed.

Lemma TI_stop o n t : TI o n t -> TI (idle o) n (stop_actions o ++ t).
Proof.
  intros [T1 T2 T3 T4 T5 T6 T7]. unfold stop_actions, idle, running_hide in *.
  destruct (Animated.animation o) as [r|] eqn:A; simpl.
  - destruct (T2 r eq_refl) as (R1 & R2 & R3).
    split; simpl.
    + constructor; assumption.
    + discriminate.
    + intros id [E|E]; [discriminate|].
      destruct (T3 id E) as (D1 & c & D2). split; [now right|]. exists c. now right.
    + intros id. rewrite count_cons. apply T4.
    + intros id [E|E] [E'|E']; try discriminate.
      * injection E' as <-. exact (R2 _ E).
      * eauto.
    + rewrite !count_cons. unfold running_hide; simpl.
      destruct (Animated.run_callback r); lia.
    + intros id c cb [E|E]; [discriminate | eauto].
  - split; simpl; auto.
Qed.

Lemma TI_start o n t c cb :
  Animated.animation o = None ->
  modal_run c cb ->
  TI o n t ->
  TI (started o n c cb) (S n) (Started n c cb :: t).
Proof.
  intros A M [T1 T2 T3 T4 T5 T6 T7]. unfold running_hide in *. rewrite A in T6.
  destruct (bounded_fresh n t n T1 (le_n n)) as (F1 & F2 & F3).
  split; simpl.
  - constructor; simpl; [lia|].
    eapply Forall_impl; [|exact T1]. intros a. apply bounded_mono. lia.
  - intros r [= <-]; simpl. repeat split; [lia| |now left].
    intros b [E|E]; [discriminate | exact (F2 b E)].
  - intros id [E|E]; [discriminate|].
    destruct (T3 id E) as (D1 & c' & D2). split; [now right|]. exists c'. now right.
  - intros id. rewrite count_cons. apply T4.
  - intros id [E|E] [E'|E']; try discriminate. eauto.
  - rewrite !count_cons. unfold running_hide; simpl. destruct cb; simpl; lia.
  - intros id c' cb' [E|E]; [injection E as <- <- <-; exact M | eauto].
Qed.

Lemma count_zero f t : (forall a, In a t -> f a = false) -> count f t = 0.
Proof.
  unfold count. induction t as [|a t IH]; simpl; intros H; [reflexivity|].
  rewrite (H a) by now left. apply IH. intros b Hb. apply H. now right.
Qed.

Lemma TI_finish o n t r s :
  Animated.animation o = Some r ->
  TI o n t ->
  TI {| Animated.settled := s; Animated.animation := None |} n (finish_actions r ++ t).
Proof.
  intros A [T1 T2 T3 T4 T5 T6 T7]. unfold running_hide in *. rewrite A in T6.
  destruct (T2 r A) as (R1 & R2 & R3).
  assert (ND : ~ In (Dismissed (Animated.run_id r)) t).
  { intros D. destruct (T3 _ D) as [D1 _]. exact (R2 _ D1). }
  unfold finish_actions.
  destruct r as [id c cb]; simpl in *. destruct cb; simpl in *.
  - split; simpl.
    + constructor; assumption.
    + discriminate.
    + intros i [E|E]; [discriminate|].
      destruct (T3 i E) as (D1 & c' & D2). split; [now right|]. exists c'. now right.
    + intros i. rewrite count_cons. apply T4.
    + intros i [E|E] [E'|E']; try discriminate.
      * injection E as <-. exact (R2 _ E').
      * eauto.
    + unfold running_hide, count in *; simpl. lia.
    + intros i c' cb' [E|E]; [discriminate | eauto].
  - split; simpl.
    + repeat constructor; assumption.
    + discriminate.
    + intros i [E|[E|E]]; try discriminate.
      * injection E as <-. split; [right; now left|]. exists c. right; now right.
      * destruct (T3 i E) as (D1 & c' & D2).
        split; [right; now right|]. exists c'. right; now right.
    + intros i. rewrite !count_cons; simpl.
      destruct (Nat.eqb id i) eqn:E; [|apply T4].
      apply Nat.eqb_eq in E. subst i.
      rewrite count_zero; [lia|].
      intros a Ha. destruct a; simpl; auto.
      destruct (Nat.eqb id0 id) eqn:E; auto.
      apply Nat.eqb_eq in E. subst id0. contradiction.
    + intros i [E|[E|E]] [E'|[E'|E']]; try discriminate.
      * injection E as <-. exact (R2 _ E').
      * eauto.
    + unfold running_hide, count in *; simpl. lia.
    + intros i c' cb' [E|[E|E]]; try discriminate. eauto.
Qed.

Lemma show_modal_run s : modal_run (show_config s) no_callback.
Proof. exists s. now left. Qed.

Lemma hide_modal_run s : modal_run (hide_config s) hide_callback.
Proof. exists s. now right. Qed.

Lemma showModal_TInv s st : TInv st -> TInv (showModal s st).
Proof.
  intros T. rewrite showModal_eq. unfold TInv; simpl.
  apply (TI_start (idle (opacity st)));
    [reflexivity | apply show_modal_run | now apply TI_stop].
Qed.

Lemma hideModal_TInv f st : TInv st -> TInv (hideModal f st).
Proof.
  intros T. rewrite hideModal_eq.
  destruct (fn_rendered f && visibleRef st); [|assumption].
  unfold TInv; simpl.
  apply (TI_start (idle (opacity st)));
    [reflexivity | apply hide_modal_run | now apply TI_stop].
Qed.

Lemma resubscribe_TInv changed p st : TInv st -> TInv (resubscribe changed p st).
Proof.
  intros T. unfold resubscribe, effect_backHandler, effect_backHandler_cleanup, addEventListener.
  destruct changed; [|assumption].
  destruct (subscription st), (visible p); unfold TInv in *; simpl;
    repeat apply TI_neutral; simpl; auto.
Qed.

Lemma commit_TInv changed p st : TInv st -> TInv (commit changed p st).
Proof.
  intros T. rewrite commit_eq.
  pose proof (resubscribe_TInv changed p (set_visibleRef (visible p) st) T) as T'.
  destruct (shows p st); [apply (showModal_TInv (scale p)) in T'|];
    exact T'.
Qed.

Lemma update_TInv p st : mounted st = true -> TInv st -> TInv (update p st).
Proof.
  intros Hm T. unfold update. apply commit_TInv.
  rewrite render_phase_eq by assumption. exact T.
Qed.

Lemma mount_TInv p : TInv (mount p).
Proof.
  unfold mount. apply commit_TInv. unfold TInv; simpl.
  split; simpl; auto; try discriminate; try contradiction.
Qed.

Lemma invoke_true_TInv r st s :
  Animated.animation (opacity st) = Some r ->
  TInv st ->
  TInv (invoke r true
          (set_opacity {| Animated.settled := s; Animated.animation := None |} st)).
Proof.
  intros A T. pose proof (TI_finish _ _ _ r s A T) as T'.
  rewrite invoke_true_eq. unfold finish_actions in T'.
  destruct (Animated.run_callback r); [exact T'|].
  unfold setRendered; simpl. destruct (mounted st); exact T'.
Qed.

Lemma animationEnd_TInv reaction st : TInv st -> TInv (animationEnd reaction st).
Proof.
  intros T. unfold animationEnd.
  destruct (Animated.animation (opacity st)) as [r|] eqn:A; [|assumption].
  pose proof (invoke_true_TInv r st (Animated.toValue (Animated.run_config r)) A T) as T'.
  destruct (Animated.run_callback r) eqn:C; [exact T'|].
  destruct (mounted _) eqn:Hm; [|exact T'].
  now apply update_TInv.
Qed.

Lemma step_TInv e st : TInv st -> TInv (step e st).
Proof.
  intros T. destruct e as [p| | | |reaction|]; simpl.
  - destruct (mounted st) eqn:Hm; [|assumption]. now apply update_TInv.
  - unfold hardwareBackPress, onHardwareBackPress.
    destruct (subscription st) as [l|]; simpl; [|assumption].
    destruct (l_dismissable l || l_dismissableBackButton l); auto using hideModal_TInv.
  - unfold backdropPress.
    destruct (output st) as [t|]; [|assumption].
    destruct (pointerEvents t); [|assumption].
    destruct (backdrop_disabled t); [assumption|].
    destruct (backdrop_onPress t); auto using hideModal_TInv.
  - unfold accessibilityEscape.
    destruct (output st) as [t|]; auto using hideModal_TInv.
  - now apply animationEnd_TInv.
  - destruct (mounted st); [|assumption].
    rewrite unmount_eq. unfold TInv in *; simpl.
    destruct (subscription st); simpl; [apply TI_neutral; simpl; auto|];
      now apply TI_stop.
Qed.

Lemma run_TInv es st : TInv st -> TInv (run es st).
Proof.
  revert st. induction es as [|e es IH]; intros st T; simpl; auto using step_TInv.
Qed.

Lemma reachable_TInv p es : TInv (run es (mount p)).
Proof. apply run_TInv, mount_TInv. Qed.

(** ** What a step adds to the trace and does to the value *)

Lemma trace_showModal s st :
  trace (showModal s st)
  = start_actions (opacity st) (next_run st) (show_config s) no_callback ++ trace st.
Proof. rewrite showModal_eq. reflexivity. Qed.

Lemma opacity_showModal s st :
  opacity (showModal s st) = started (opacity st) (next_run st) (show_config s) no_callback.
Proof. rewrite showModal_eq. reflexivity. Qed.

Lemma trace_hideModal f st :
  trace (hideModal f st)
  = (if fn_rendered f && visibleRef st
     then start_actions (opacity st) (next_run st) (hide_config (fn_scale f)) hide_callback
     else []) ++ trace st.
Proof. rewrite hideModal_eq. now destruct (fn_rendered f && visibleRef st). Qed.

Lemma opacity_hideModal f st :
  opacity (hideModal f st)
  = if fn_rendered f && visibleRef st
    then started (opacity st) (next_run st) (hide_config (fn_scale f)) hide_callback
    else opacity st.
Proof. rewrite hideModal_eq. now destruct (fn_rendered f && visibleRef st). Qed.

Lemma visibleRef_hideModal f st :
  visibleRef (hideModal f st) = visibleRef st && negb (fn_rendered f).
Proof.
  rewrite hideModal_eq.
  destruct (fn_rendered f), (visibleRef st) eqn:E; simpl; rewrite ?E; reflexivity.
Qed.

Lemma resubscribe_frame changed p st :
  trace (resubscribe changed p st) = resub_actions changed p st ++ trace st
  /\ opacity (resubscribe changed p st) = opacity st
  /\ next_run (resubscribe changed p st) = next_run st.
Proof.
  unfold resubscribe, resub_actions, effect_backHandler, effect_backHandler_cleanup,
    addEventListener.
  destruct changed; [|auto].
  destruct (visible p), (subscription st); simpl; auto.
Qed.

Lemma commit_frame changed p st :
  trace (commit changed p st)
  = show_actions p st ++ resub_actions changed p st ++ trace st
  /\ opacity (commit changed p st)
     = (if shows p st
        then started (opacity st) (next_run st) (show_config (scale p)) no_callback
        else opacity st).
Proof.
  rewrite commit_eq. unfold show_actions.
  destruct (resubscribe_frame changed p (set_visibleRef (visible p) st)) as (E1 & E2 & E3).
  simpl in E1, E2, E3.
  destruct (shows p st); unfold set_props, set_prevVisible; cbn [trace opacity].
  - rewrite trace_showModal, opacity_showModal, E1, E2, E3. auto.
  - rewrite E1, E2. auto.
Qed.

Lemma render_phase_frame p st :
  mounted st = true ->
  trace (render_phase p st) = trace st
  /\ opacity (render_phase p st) = opacity st
  /\ next_run (render_phase p st) = next_run st
  /\ subscription (render_phase p st) = subscription st
  /\ prevVisible (render_phase p st) = prevVisible st.
Proof. intros Hm. rewrite render_phase_eq by assumption. simpl. auto. Qed.

Lemma update_frame p st :
  mounted st = true ->
  trace (update p st)
  = show_actions p st
    ++ resub_actions (deps_changed (props st) (hideModal_memo st) p
                        (hideModal_memo (update p st))) p st
    ++ trace st
  /\ opacity (update p st)
     = (if shows p st
        then started (opacity st) (next_run st) (show_config (scale p)) no_callback
        else opacity st).
Proof.
  intros Hm.
  assert (Hf : hideModal_memo (update p st) = hideModal_memo (render_phase p st)).
  { unfold update.
    match goal with |- context [commit ?c p ?s] =>
      destruct (commit_fields c p s) as (_ & _ & _ & _ & _ & H & _) end.
    exact H. }
  rewrite Hf. unfold update.
  match goal with |- context [commit ?c p ?s] =>
    destruct (commit_frame c p s) as (E1 & E2) end.
  destruct (render_phase_frame p st Hm) as (F1 & F2 & F3 & F4 & F5).
  rewrite E1, E2.
  unfold show_actions, shows, transition_detected, resub_actions.
  rewrite F1, F2, F3, F4, F5. auto.
Qed.

Lemma emitted_app st st' l : trace st' = l ++ trace st -> emitted st st' = l.
Proof.
  intros E. unfold emitted. rewrite E, length_app, Nat.add_sub.
  rewrite firstn_app, Nat.sub_diag, firstn_all. simpl. apply app_nil_r.
Qed.

Lemma trace_invoke_true r st :
  trace (invoke r true st) = finish_actions r ++ trace st.
Proof.
  rewrite invoke_true_eq. unfold finish_actions, setRendered.
  destruct (Animated.run_callback r); simpl; [reflexivity|].
  now destruct (mounted st).
Qed.

Lemma trace_step_suffix e st : exists l, trace (step e st) = l ++ trace st.
Proof.
  destruct e as [p| | | |reaction|]; simpl.
  - destruct (mounted st) eqn:Hm; [|now exists []].
    destruct (update_frame p st Hm) as [E _]. rewrite E, app_assoc. eauto.
  - unfold hardwareBackPress, onHardwareBackPress.
    destruct (subscription st) as [l|]; simpl; [|now exists []].
    destruct (l_dismissable l || l_dismissableBackButton l); [|now exists []].
    rewrite trace_hideModal. eauto.
  - unfold backdropPress.
    destruct (output st) as [t|]; [|now exists []].
    destruct (pointerEvents t); [|now exists []].
    destruct (backdrop_disabled t); [now exists []|].
    destruct (backdrop_onPress t); [|now exists []].
    rewrite trace_hideModal. eauto.
  - unfold accessibilityEscape.
    destruct (output st) as [t|]; [|now exists []].
    rewrite trace_hideModal. eauto.
  - unfold animationEnd.
    destruct (Animated.animation (opacity st)) as [r|]; [|now exists []].
    match goal with |- context [invoke r true ?s] =>
      pose proof (trace_invoke_true r s) as E; set (st1 := invoke r true s) in * end.
    simpl in E.
    destruct (Animated.run_callback r); [eauto|].
    destruct (mounted st1) eqn:Hm; [|eauto].
    match goal with |- context [update ?q st1] =>
      destruct (update_frame q st1 Hm) as [E' _]; rewrite E', E, !app_assoc end.
    eauto.
  - destruct (mounted st); [|now exists []].
    rewrite unmount_eq. simpl. rewrite app_assoc. eauto.
Qed.

Lemma trace_run_suffix es st : exists l, trace (run es st) = l ++ trace st.
Proof.
  revert st. induction es as [|e es IH]; intros st; simpl; [now exists []|].
  destruct (IH (step e st)) as [l1 E1]. destruct (trace_step_suffix e st) as [l2 E2].
  exists (l1 ++ l2). now rewrite E1, E2, app_assoc.
Qed.

(** ** Re-rendering, counting and the flag *)

Lemma count_app f l t : count f (l ++ t) = count f l + count f t.
Proof. unfold count. now rewrite filter_app, length_app. Qed.

Lemma deps_changed_refl p f : deps_changed p f p f = false.
Proof.
  unfold deps_changed. now rewrite !eqb_reflx, Nat.eqb_refl.
Qed.

Lemma detected_iff p st :
  Inv st -> (transition_detected p st = true <-> visible p <> visible (props st)).
Proof.
  intros I. unfold transition_detected. rewrite (inv_prev st I).
  destruct (visible p), (visible (props st)); simpl; split; congruence.
Qed.

Lemma shows_eq p st :
  Inv st -> shows p st = negb (visible (props st)) && visible p.
Proof.
  intros I. unfold shows, transition_detected. rewrite (inv_prev st I).
  now destruct (visible p), (visible (props st)).
Qed.

(** A render with the props already committed changes nothing at all. *)
Lemma update_fixed st :
  mounted st = true -> Inv st -> visibleRef st = visible (props st) ->
  update (props st) st = st.
Proof.
  intros Hm I Hv. unfold update.
  rewrite render_phase_eq by assumption.
  rewrite render_memo_same;
    [|exact (inv_memo_s st I) | exact (inv_memo_r st I) | exact (inv_rendered st I)].
  cbn [hideModal_memo set_memo fst]. rewrite deps_changed_refl, commit_eq.
  unfold shows, transition_detected, resubscribe. cbn [prevVisible set_memo set_rendered].
  rewrite (inv_prev st I), eqb_reflx. simpl.
  pose proof (inv_rendered st I) as Hr. pose proof (inv_prev st I) as Hp.
  destruct st as [m q vr r pv o f sub nf nr t]; simpl in *. subst vr pv.
  unfold set_props, set_prevVisible, set_visibleRef, set_memo, set_rendered; simpl.
  f_equal. destruct (visible q); [now rewrite Hr | apply orb_false_r].
Qed.

Lemma update_idempotent p st :
  mounted st = true ->
  fn_id (hideModal_memo st) < next_fn st ->
  subscription st =
    (if visible (props st) then Some (listener_of (props st) (hideModal_memo st)) else None) ->
  update p (update p st) = update p st.
Proof.
  intros Hm Hf Hs.
  pose proof (update_Inv p st Hm Hf Hs) as I.
  destruct (update_fields p st Hm) as (H1 & H2 & H3 & _).
  rewrite <- H2 at 1. apply update_fixed; [assumption | assumption |].
  now rewrite H2, H3.
Qed.

Lemma rendered_hideModal f st : rendered (hideModal f st) = rendered st.
Proof. rewrite hideModal_eq. now destruct (fn_rendered f && visibleRef st). Qed.

Lemma hideModal_budget f st : hide_budget (hideModal f st) <= hide_budget st.
Proof.
  unfold hide_budget. rewrite trace_hideModal, visibleRef_hideModal, count_app.
  unfold start_actions, stop_actions, count.
  destruct (fn_rendered f), (visibleRef st), (Animated.animation (opacity st));
    simpl; lia.
Qed.

Lemma resub_actions_neutral changed p st a :
  In a (resub_actions changed p st) -> neutral a.
Proof.
  unfold resub_actions.
  destruct changed, (visible p), (subscription st); simpl; intuition (subst; exact I).
Qed.

Lemma count_neutral f l :
  (forall a, neutral a -> f a = false) ->
  (forall a, In a l -> neutral a) -> count f l = 0.
Proof. intros Hf Hl. apply count_zero. auto. Qed.

Lemma hide_started_neutral a : neutral a -> hide_started a = false.
Proof. now destruct a. Qed.

Lemma any_dismissed_neutral a : neutral a -> any_dismissed a = false.
Proof. now destruct a. Qed.

Lemma any_started_neutral a : neutral a -> any_started a = false.
Proof. now destruct a. Qed.

Lemma trigger_budget e st :
  dismissal_trigger e -> hide_budget (step e st) <= hide_budget st.
Proof.
  destruct e as [p| | | |reaction|]; simpl; intros H; try contradiction.
  - destruct (mounted st) eqn:Hm; [|lia].
    destruct (update_frame p st Hm) as [E _].
    destruct (update_fields p st Hm) as (_ & _ & V & _).
    unfold hide_budget. rewrite E, V, H, !count_app.
    unfold show_actions, shows. rewrite H, andb_false_r.
    rewrite (count_neutral hide_started (resub_actions _ _ _));
      [simpl; lia | apply hide_started_neutral | apply resub_actions_neutral].
  - unfold hardwareBackPress, onHardwareBackPress.
    destruct (subscription st) as [l|]; simpl; [|lia].
    destruct (l_dismissable l || l_dismissableBackButton l); [apply hideModal_budget | lia].
  - unfold backdropPress.
    destruct (output st) as [t|]; [|lia].
    destruct (pointerEvents t); [|lia].
    destruct (backdrop_disabled t); [lia|].
    destruct (backdrop_onPress t); [apply hideModal_budget | lia].
  - unfold accessibilityEscape.
    destruct (output st) as [t|]; [apply hideModal_budget | lia].
Qed.

Lemma triggers_budget ts st :
  Forall dismissal_trigger ts -> hide_budget (run ts st) <= hide_budget st.
Proof.
  revert st. induction ts as [|e ts IH]; intros st F; simpl; [lia|].
  inversion F as [|? ? He Hts]; subst.
  specialize (IH (step e st) Hts). pose proof (trigger_budget e st He). lia.
Qed.

(** ** Where runs start and where [onDismiss] is called *)

Lemma count_start_actions f o n c cb :
  (forall id b, f (Ended id b) = false) ->
  count f (start_actions o n c cb) = if f (Started n c cb) then 1 else 0.
Proof.
  intros Hf. unfold start_actions, stop_actions, count.
  destruct (Animated.animation o); simpl; rewrite ?Hf; destruct (f _); reflexivity.
Qed.

Lemma count_show_actions f p st :
  (forall id b, f (Ended id b) = false) ->
  count f (show_actions p st)
  = if shows p st && f (Started (next_run st) (show_config (scale p)) no_callback)
    then 1 else 0.
Proof.
  intros Hf. unfold show_actions.
  destruct (shows p st); [|reflexivity].
  now rewrite count_start_actions.
Qed.

Lemma count_update f p st :
  mounted st = true ->
  (forall id b, f (Ended id b) = false) ->
  (forall a, neutral a -> f a = false) ->
  count f (trace (update p st))
  = (if shows p st && f (Started (next_run st) (show_config (scale p)) no_callback)
     then 1 else 0)
    + count f (trace st).
Proof.
  intros Hm Hf Hn. destruct (update_frame p st Hm) as [E _].
  rewrite E, !count_app, count_show_actions by assumption.
  rewrite (count_neutral f (resub_actions _ _ _));
    [reflexivity | assumption | apply resub_actions_neutral].
Qed.

Lemma count_hideModal f g st :
  (forall id b, f (Ended id b) = false) ->
  count f (trace (hideModal g st))
  = (if fn_rendered g && visibleRef st
        && f (Started (next_run st) (hide_config (fn_scale g)) hide_callback)
     then 1 else 0)
    + count f (trace st).
Proof.
  intros Hf. rewrite trace_hideModal, count_app.
  destruct (fn_rendered g && visibleRef st); [|reflexivity].
  now rewrite count_start_actions.
Qed.

(** A commit whose intent is false starts no run: the first effect has
    lowered the flag before the transition effect calls [hideModal]. *)
Lemma intent_false_starts_no_run p st :
  mounted st = true -> visible p = false ->
  count any_started (trace (update p st)) = count any_started (trace st)
  /\ opacity (update p st) = opacity st.
Proof.
  intros Hm Hv. destruct (update_frame p st Hm) as [_ Eo].
  rewrite count_update, Eo by (assumption || reflexivity || apply any_started_neutral).
  unfold shows. rewrite Hv, andb_false_r. auto.
Qed.

(** [onDismiss] is called in the step in which a hide run completes, once,
    and in no other step. *)
Lemma dismissed_step e st :
  count any_dismissed (trace (step e st))
  = count any_dismissed (trace st)
    + match e with
      | AnimationEnd _ => running_hide (opacity st)
      | _ => 0
      end.
Proof.
  assert (Hd : forall id b, any_dismissed (Ended id b) = false) by reflexivity.
  destruct e as [p| | | |reaction|]; simpl.
  - destruct (mounted st) eqn:Hm; [|lia].
    rewrite count_update by (assumption || apply any_dismissed_neutral).
    simpl. rewrite andb_false_r. lia.
  - unfold hardwareBackPress, onHardwareBackPress.
    destruct (subscription st) as [l|]; simpl; [|lia].
    destruct (l_dismissable l || l_dismissableBackButton l); [|lia].
    rewrite count_hideModal by assumption. simpl. rewrite andb_false_r. lia.
  - unfold backdropPress.
    destruct (output st) as [t|]; [|lia].
    destruct (pointerEvents t); [|lia].
    destruct (backdrop_disabled t); [lia|].
    destruct (backdrop_onPress t); [|lia].
    rewrite count_hideModal by assumption. simpl. rewrite andb_false_r. lia.
  - unfold accessibilityEscape.
    destruct (output st) as [t|]; [|lia].
    rewrite count_hideModal by assumption. simpl. rewrite andb_false_r. lia.
  - unfold animationEnd, running_hide.
    destruct (Animated.animation (opacity st)) as [r|]; [|lia].
    match goal with |- context [invoke r true ?s] =>
      pose proof (trace_invoke_true r s) as E; set (st1 := invoke r true s) in * end.
    simpl in E. unfold finish_actions in E.
    destruct (Animated.run_callback r); cbv beta iota.
    + rewrite E. cbn [app]. rewrite count_cons. cbn [any_dismissed]. lia.
    + assert (E1 : count any_dismissed (trace st1) = S (count any_dismissed (trace st)))
        by (rewrite E; cbn [app]; rewrite !count_cons; reflexivity).
      destruct (mounted st1) eqn:Hm; [|lia].
      rewrite count_update by (assumption || apply any_dismissed_neutral).
      simpl. rewrite andb_false_r. lia.
  - destruct (mounted st); [|lia].
    rewrite unmount_eq. cbn [trace set_mounted set_subscription set_trace].
    rewrite !count_app. unfold stop_actions, count.
    destruct (subscription st), (Animated.animation (opacity st)); simpl; lia.
Qed.

(** The flag goes up only in a step that commits a render. *)
Lemma flag_raised_by_commit e st :
  visibleRef st = false -> visibleRef (step e st) = true ->
  visible (props (step e st)) = true
  /\ ((exists p, e = Render p) \/ (exists reaction, e = AnimationEnd reaction)).
Proof.
  intros Hv Hv'. destruct e as [p| | | |reaction|]; simpl in *.
  - destruct (mounted st) eqn:Hm; [|congruence].
    destruct (update_fields p st Hm) as (_ & H2 & H3 & _).
    rewrite H2. rewrite H3 in Hv'. eauto.
  - unfold hardwareBackPress, onHardwareBackPress in Hv'.
    destruct (subscription st) as [l|]; simpl in Hv'; [|congruence].
    destruct (l_dismissable l || l_dismissableBackButton l); [|congruence].
    rewrite visibleRef_hideModal, Hv in Hv'. discriminate.
  - unfold backdropPress in Hv'.
    destruct (output st) as [t|]; [|congruence].
    destruct (pointerEvents t); [|congruence].
    destruct (backdrop_disabled t); [congruence|].
    destruct (backdrop_onPress t); [|congruence].
    rewrite visibleRef_hideModal, Hv in Hv'. discriminate.
  - unfold accessibilityEscape in Hv'.
    destruct (output st) as [t|]; [|congruence].
    rewrite visibleRef_hideModal, Hv in Hv'. discriminate.
  - unfold animationEnd in *.
    destruct (Animated.animation (opacity st)) as [r|]; [|congruence].
    rewrite invoke_true_eq in *.
    destruct (Animated.run_callback r).
    + simpl in Hv'. congruence.
    + match goal with |- context [setRendered false ?s] =>
        set (st1 := setRendered false s) in * end.
      assert (Hv1 : visibleRef st1 = false).
      { unfold st1, setRendered. simpl. now destruct (mounted st). }
      destruct (mounted st1) eqn:Hm; [|congruence].
      match goal with |- context [update ?q st1] =>
        destruct (update_fields q st1 Hm) as (_ & H2 & H3 & _);
        rewrite H2; rewrite H3 in Hv' end.
      eauto.
  - destruct (mounted st); [|congruence].
    rewrite unmount_eq in Hv'. simpl in Hv'. congruence.
Qed.

(** The closures a dismissal request can call are the one of the last
    render. *)
Lemma request_closure e st :
  Inv st ->
  match e with
  | HardwareBackPress | BackdropPress | AccessibilityEscape =>
      step e st = st \/ step e st = hideModal (hideModal_memo st) st
  | _ => True
  end.
Proof.
  intros I. destruct e; simpl; auto.
  - unfold hardwareBackPress, onHardwareBackPress. rewrite (inv_sub st I).
    destruct (mounted st && visible (props st)); simpl; auto.
    destruct (dismissable (props st) || dismissableBackButton (props st)); auto.
  - unfold backdropPress, output, Modal_return.
    destruct (mounted st); auto. destruct (rendered st); simpl; auto.
    destruct (visible (props st)); auto.
    destruct (dismissable (props st)); simpl; auto.
  - unfold accessibilityEscape, output, Modal_return.
    destruct (mounted st); auto. destruct (rendered st); simpl; auto.
Qed.

Lemma mounted_hideModal f st : mounted (hideModal f st) = mounted st.
Proof. rewrite hideModal_eq. now destruct (fn_rendered f && visibleRef st). Qed.

Lemma props_hideModal f st : props (hideModal f st) = props st.
Proof. rewrite hideModal_eq. now destruct (fn_rendered f && visibleRef st). Qed.

Lemma subscription_hideModal f st : subscription (hideModal f st) = subscription st.
Proof. rewrite hideModal_eq. now destruct (fn_rendered f && visibleRef st). Qed.

(** Every run a step starts is a show run or a hide run with the scale of
    the props committed when the step is over. *)
Lemma started_in_step e st id c cb :
  Inv st ->
  In (Started id c cb) (emitted st (step e st)) ->
  (c = show_config (scale (props (step e st))) /\ cb = no_callback)
  \/ (c = hide_config (scale (props (step e st))) /\ cb = hide_callback).
Proof.
  intros I.
  assert (Hstop : forall o, ~ In (Started id c cb) (stop_actions o)).
  { intros o. unfold stop_actions. destruct (Animated.animation o); simpl; intuition discriminate. }
  assert (Hshow : forall q s, In (Started id c cb) (show_actions q s) ->
                              c = show_config (scale q) /\ cb = no_callback).
  { intros q s. unfold show_actions, start_actions.
    destruct (shows q s); simpl; [|tauto].
    intros [E|E]; [injection E as _ <- <-; auto | destruct (Hstop _ E)]. }
  assert (Hresub : forall ch q s, ~ In (Started id c cb) (resub_actions ch q s)).
  { intros ch q s H. apply resub_actions_neutral in H. exact H. }
  assert (Hhide : In (Started id c cb) (emitted st (hideModal (hideModal_memo st) st)) ->
                  c = hide_config (scale (props (hideModal (hideModal_memo st) st)))
                  /\ cb = hide_callback).
  { rewrite (emitted_app st _ _ (trace_hideModal (hideModal_memo st) st)), props_hideModal.
    destruct (fn_rendered (hideModal_memo st) && visibleRef st); simpl; [|tauto].
    rewrite (inv_memo_s st I).
    intros [E|E]; [injection E as _ <- <-; auto | destruct (Hstop _ E)]. }
  assert (Hnil : ~ In (Started id c cb) (emitted st st)).
  { rewrite (emitted_app st st [] eq_refl). simpl. tauto. }
  pose proof (request_closure e st I) as Rq.
  destruct e as [p| | | |reaction|].
  - simpl. destruct (mounted st) eqn:Hm; [|intros H; destruct (Hnil H)].
    destruct (update_frame p st Hm) as [Et _].
    destruct (update_fields p st Hm) as (_ & -> & _).
    rewrite app_assoc in Et. rewrite (emitted_app _ _ _ Et), in_app_iff.
    intros [H|H]; [left; eauto | destruct (Hresub _ _ _ H)].
  - destruct Rq as [-> | ->]; [intros H; destruct (Hnil H) | right; auto].
  - destruct Rq as [-> | ->]; [intros H; destruct (Hnil H) | right; auto].
  - destruct Rq as [-> | ->]; [intros H; destruct (Hnil H) | right; auto].
  - simpl. unfold animationEnd.
    destruct (Animated.animation (opacity st)) as [r|] eqn:A;
      [|intros H; destruct (Hnil H)].
    match goal with |- context [invoke r true ?s] =>
      pose proof (trace_invoke_true r s) as E; set (st1 := invoke r true s) in * end.
    simpl in E.
    assert (Hfin : ~ In (Started id c cb) (finish_actions r)).
    { unfold finish_actions. destruct (Animated.run_callback r); simpl; intuition discriminate. }
    destruct (Animated.run_callback r);
      [rewrite (emitted_app _ _ _ E); intros H; destruct (Hfin H)|].
    destruct (mounted st1) eqn:Hm;
      [|rewrite (emitted_app _ _ _ E); intros H; destruct (Hfin H)].
    match goal with |- context [update ?q st1] =>
      destruct (update_frame q st1 Hm) as [Et _];
      destruct (update_fields q st1 Hm) as (_ & -> & _);
      rewrite E, !app_assoc in Et; rewrite (emitted_app _ _ _ Et), !in_app_iff
    end.
    intros [[H|H]|H]; [left; eauto | destruct (Hresub _ _ _ H) | destruct (Hfin H)].
  - simpl. destruct (mounted st) eqn:Hm; [|intros H; destruct (Hnil H)].
    assert (Et : trace (unmount st)
                 = ((match subscription st with Some _ => [Removed] | None => [] end)
                    ++ stop_actions (opacity st)) ++ trace st).
    { rewrite unmount_eq. simpl. apply app_assoc. }
    rewrite (emitted_app _ _ _ Et), in_app_iff.
    intros [H|H]; [|destruct (Hstop _ H)].
    destruct (subscription st); simpl in H; intuition discriminate.
Qed.

Lemma started_in_mount p id c cb :
  In (Started id c cb) (trace (mount p)) ->
  c = show_config (scale p) /\ cb = no_callback.
Proof.
  unfold mount.
  match goal with |- context [commit true p ?s] =>
    destruct (commit_frame true p s) as [Et _] end.
  rewrite Et, !in_app_iff. unfold show_actions, start_actions, stop_actions.
  intros [H|[H|H]].
  - destruct (shows p _); simpl in H; [|tauto].
    destruct H as [E|E]; [injection E as _ <- <-; auto | destruct E].
  - apply resub_actions_neutral in H. destruct H.
  - destruct H.
Qed.

(** * The claims *)

(** C1. Along every sequence of events, with a true-to-false transition read
    as a pass of [hideModal] through its guard (where the visibility flag goes
    from true to false and a hide run is started): each hide run calls
    [onDismiss] at most once, and only from a completion with
    [finished = true] of that run, never of a run that was stopped; the calls
    are no more than the hide runs started; a step adds a call only when it
    is the completion of a hide run in flight, and then one; [rendered] goes
    from true to false only in such a step.  When the intent
    goes back to true while a hide run is in flight, the run is stopped with
    [finished = false], no call is made, the content stays rendered, the show
    run takes its place, and after any later events the stopped run has made
    no call and is not in flight. *)
Theorem C1_dismiss_once_per_hide (p : ModalProps) (es : list Event) :
  let st := run es (mount p) in
  (forall id, count (is_dismissed id) (trace st) <= 1)
  /\ (forall id, In (Dismissed id) (trace st) ->
        In (Ended id true) (trace st)
        /\ ~ In (Ended id false) (trace st)
        /\ exists c, In (Started id c hide_callback) (trace st))
  /\ count any_dismissed (trace st) <= count hide_started (trace st)
  /\ (forall e,
        count any_dismissed (trace (step e st)) <> count any_dismissed (trace st) ->
        count any_dismissed (trace (step e st)) = S (count any_dismissed (trace st))
        /\ exists reaction r, e = AnimationEnd reaction /\ hiding st r)
  /\ (forall e, rendered st = true -> rendered (step e st) = false ->
        exists reaction r, e = AnimationEnd reaction /\ hiding st r)
  /\ (forall p' r, mounted st = true -> hiding st r ->
        visible (props st) = false -> visible p' = true ->
        let st' := step (Render p') st in
        rendered st' = true
        /\ emitted st st'
           = Started (next_run st) (show_config (scale p')) no_callback
             :: Ended (Animated.run_id r) false
             :: resub_actions true p' st
        /\ count any_dismissed (trace st') = count any_dismissed (trace st)
        /\ opacity st'
           = started (opacity st) (next_run st) (show_config (scale p')) no_callback
        /\ forall es',
             ~ In (Dismissed (Animated.run_id r)) (trace (run es' st'))
             /\ forall r', Animated.animation (opacity (run es' st')) = Some r' ->
                  Animated.run_id r' <> Animated.run_id r).
Proof.
  intros st.
  pose proof (reachable_Inv p es) as I. pose proof (reachable_TInv p es) as T.
  fold st in I, T.
  split; [exact (t_once _ _ _ T)|]. split; [|split; [|split; [|split]]].
  - intros id D. destruct (t_dismissed _ _ _ T id D) as [E S]. repeat split; auto.
    intros F. exact (t_ended _ _ _ T id E F).
  - pose proof (t_count _ _ _ T). lia.
  - intros e. rewrite dismissed_step.
    destruct e as [q| | | |reaction|]; try lia.
    unfold running_hide.
    destruct (Animated.animation (opacity st)) as [r|] eqn:A; [|lia].
    destruct (Animated.run_callback r) eqn:C; [lia|].
    intros _. split; [lia|]. exists reaction, r. repeat split; assumption.
  - intros e Hr Hr'. destruct e as [q| | | |reaction|]; simpl in Hr'.
    + destruct (mounted st) eqn:Hm; [|congruence].
      destruct (update_fields q st Hm) as (_ & _ & _ & H4 & _).
      rewrite H4, Hr in Hr'. discriminate.
    + unfold hardwareBackPress, onHardwareBackPress in Hr'.
      destruct (subscription st) as [l|]; simpl in Hr'; [|congruence].
      destruct (l_dismissable l || l_dismissableBackButton l);
        rewrite ?rendered_hideModal in Hr'; congruence.
    + unfold backdropPress in Hr'.
      destruct (output st) as [t|]; [|congruence].
      destruct (pointerEvents t); [|congruence].
      destruct (backdrop_disabled t); [congruence|].
      destruct (backdrop_onPress t); rewrite ?rendered_hideModal in Hr'; congruence.
    + unfold accessibilityEscape in Hr'.
      destruct (output st) as [t|]; rewrite ?rendered_hideModal in Hr'; congruence.
    + unfold animationEnd in Hr'.
      destruct (Animated.animation (opacity st)) as [r|] eqn:A; [|congruence].
      destruct (Animated.run_callback r) eqn:C.
      * rewrite invoke_true_eq, C in Hr'. simpl in Hr'. congruence.
      * exists reaction, r. split; [reflexivity|]. split; assumption.
    + destruct (mounted st); [|congruence].
      rewrite unmount_eq in Hr'. simpl in Hr'. congruence.
  - intros p' r Hm [A C] Hv Hv' st'.
    assert (Est : st' = update p' st) by (unfold st'; simpl; now rewrite Hm).
    destruct (update_fields p' st Hm) as (_ & _ & _ & H4 & _).
    destruct (update_frame p' st Hm) as [Et Eo].
    rewrite <- Est in H4, Et, Eo.
    assert (Hs : shows p' st = true) by now rewrite (shows_eq p' st I), Hv, Hv'.
    assert (Hc : deps_changed (props st) (hideModal_memo st) p' (hideModal_memo st') = true).
    { unfold deps_changed. now rewrite Hv, Hv', andb_false_r. }
    unfold show_actions in Et. rewrite Hs, Hc in Et. rewrite Hs in Eo.
    unfold start_actions, stop_actions in Et. rewrite A in Et. cbn [app] in Et.
    split; [rewrite H4, Hv'; apply orb_true_r|].
    split; [apply emitted_app; exact Et|].
    split; [|split; [exact Eo|]].
    + rewrite Et, !count_cons. cbn [any_dismissed]. rewrite count_app.
      rewrite (count_neutral any_dismissed (resub_actions _ _ _));
        [reflexivity | apply any_dismissed_neutral | apply resub_actions_neutral].
    + intros es'.
      assert (Er : run es' st' = run ((es ++ [Render p']) ++ es') (mount p)).
      { rewrite !run_app. reflexivity. }
      pose proof (reachable_TInv p ((es ++ [Render p']) ++ es')) as T'.
      rewrite <- Er in T'.
      assert (Hstop : In (Ended (Animated.run_id r) false) (trace (run es' st'))).
      { destruct (trace_run_suffix es' st') as [l El]. rewrite El, Et.
        apply in_or_app. right. right. now left. }
      split.
      * intros D. destruct (t_dismissed _ _ _ T' _ D) as [E _].
        exact (t_ended _ _ _ T' _ E Hstop).
      * intros r' A' E. destruct (t_running _ _ _ T' r' A') as (_ & N & _).
        apply (N false). rewrite E. exact Hstop.
Qed.

Lemma C1_dismiss_once_per_hide_witness :
  let st := run [HardwareBackPress; Render (sample_props false)]
              (mount (sample_props true)) in
  let r := {| Animated.run_id := 1;
              Animated.run_config := hide_config 1%float;
              Animated.run_callback := hide_callback |} in
  let st' := step (Render (sample_props true)) st in
  (mounted st = true /\ hiding st r
   /\ visible (props st) = false /\ visible (sample_props true) = true)
  /\ rendered st' = true
  /\ count any_dismissed (trace st') = count any_dismissed (trace st)
  /\ ~ In (Dismissed (Animated.run_id r)) (trace (run [AnimationEnd None] st')).
Proof.
  intros st r st'.
  assert (H : mounted st = true /\ hiding st r
              /\ visible (props st) = false /\ visible (sample_props true) = true).
  { repeat split. }
  split; [exact H|].
  destruct H as (Hm & Hh & Hv & Hv').
  destruct (C1_dismiss_once_per_hide (sample_props true)
              [HardwareBackPress; Render (sample_props false)])
    as (_ & _ & _ & _ & _ & H5).
  destruct (H5 (sample_props true) r Hm Hh Hv Hv') as (R1 & _ & R3 & _ & R5).
  split; [exact R1|]. split; [exact R3 | exact (proj1 (R5 [AnimationEnd None]))].
Defined.

(** C2. In every reachable state a true intent implies [rendered]; the owner,
    who can only re-render with new props, changes [rendered] and the opacity
    through the transition logic alone: [rendered] is raised when the intent
    is true, and the opacity is touched only by the show run of a
    false-to-true change.  A state with a false intent, [rendered] true and a
    hide run in flight is reachable. *)
Theorem C2_rendered_whenever_visible (p : ModalProps) (es : list Event) :
  let st := run es (mount p) in
  (visible (props st) = true -> rendered st = true)
  /\ (forall p', mounted st = true ->
      rendered (step (Render p') st) = rendered st || visible p'
      /\ opacity (step (Render p') st)
         = (if negb (visible (props st)) && visible p'
            then started (opacity st) (next_run st) (show_config (scale p')) no_callback
            else opacity st))
  /\ (exists p0 es0 r,
        visible (props (run es0 (mount p0))) = false
        /\ rendered (run es0 (mount p0)) = true
        /\ hiding (run es0 (mount p0)) r).
Proof.
  intros st. pose proof (reachable_Inv p es) as I. fold st in I.
  split; [exact (inv_rendered st I)|]. split.
  - intros p' Hm. simpl. rewrite Hm.
    destruct (update_fields p' st Hm) as (_ & _ & _ & H4 & _).
    destruct (update_frame p' st Hm) as [_ E].
    rewrite H4, E, (shows_eq p' st I). auto.
  - exists (sample_props true), [HardwareBackPress; Render (sample_props false)],
      {| Animated.run_id := 1;
         Animated.run_config := hide_config 1%float;
         Animated.run_callback := hide_callback |}.
    repeat split.
Qed.

Lemma C2_rendered_whenever_visible_witness :
  let st := run [] (mount (sample_props true)) in
  visible (props st) = true /\ rendered st = true
  /\ rendered (step (Render (sample_props false)) st)
     = rendered st || visible (sample_props false).
Proof.
  intros st.
  destruct (C2_rendered_whenever_visible (sample_props true) []) as (H1 & H2 & _).
  split; [reflexivity|]. split; [exact (H1 eq_refl)|].
  exact (proj1 (H2 (sample_props false) eq_refl)).
Defined.

(** C3, as worded, fails: after a back press has started the hide run and the
    owner has set the intent to false, the tree is still returned. *)
Lemma C3_output_while_intent_false : ~ no_output_while_intent_false.
Proof.
  intros H.
  specialize (H (sample_props true) [HardwareBackPress; Render (sample_props false)]).
  vm_compute in H. specialize (H eq_refl). discriminate H.
Qed.

(** C3, amended.  The component returns nothing exactly when [rendered] is
    false; while [rendered] is true it returns the tree whatever the intent,
    and the root of that tree takes pointer input exactly when the intent is
    true. *)
Theorem C3_no_output_iff_not_rendered (st : Instance) :
  (Modal_return (props st) (rendered st) (hideModal_memo st) = None
     <-> rendered st = false)
  /\ (mounted st = true -> (output st = None <-> rendered st = false))
  /\ (mounted st = true -> rendered st = true ->
      exists t, output st = Some t
        /\ pointerEvents t = (if visible (props st) then pe_auto else pe_none)).
Proof.
  unfold output, Modal_return.
  split; [|split].
  - destruct (rendered st); simpl; split; congruence.
  - intros ->. destruct (rendered st); simpl; split; congruence.
  - intros -> ->. simpl. eexists. split; reflexivity.
Qed.

Lemma C3_no_output_iff_not_rendered_witness :
  exists t,
    output (run [HardwareBackPress; Render (sample_props false)]
              (mount (sample_props true))) = Some t
    /\ pointerEvents t = pe_none.
Proof.
  apply (C3_no_output_iff_not_rendered
           (run [HardwareBackPress; Render (sample_props false)]
              (mount (sample_props true)))); reflexivity.
Defined.

(** C4. While the intent is true (and the instance is mounted) a hardware
    back press is reported as consumed, and it calls [hideModal] exactly when
    [dismissable] or [dismissableBackButton] is true; with both false the
    state is unchanged. *)
Theorem C4_back_press_consumed (p : ModalProps) (es : list Event) :
  let st := run es (mount p) in
  mounted st = true ->
  visible (props st) = true ->
  fst (hardwareBackPress st) = true
  /\ step HardwareBackPress st
     = (if dismissable (props st) || dismissableBackButton (props st)
        then hideModal (hideModal_memo st) st
        else st)
  /\ (dismissable (props st) = false -> dismissableBackButton (props st) = false ->
      step HardwareBackPress st = st).
Proof.
  intros st Hm Hv. pose proof (reachable_Inv p es) as I. fold st in I.
  simpl. unfold hardwareBackPress.
  rewrite (inv_sub st I), Hm, Hv. simpl.
  repeat split. intros -> ->. reflexivity.
Qed.

Lemma C4_back_press_consumed_witness :
  let st := run [] (mount (sample_props true)) in
  mounted st = true /\ visible (props st) = true
  /\ fst (hardwareBackPress st) = true
  /\ step HardwareBackPress st
     = (if dismissable (props st) || dismissableBackButton (props st)
        then hideModal (hideModal_memo st) st
        else st).
Proof.
  intros st. split; [reflexivity|]. split; [reflexivity|].
  destruct (C4_back_press_consumed (sample_props true) [] eq_refl eq_refl)
    as (H1 & H2 & _).
  split; assumption.
Defined.

(** C5, as worded, fails in its consequence: a commit with a true intent
    puts the flag up again while the hide run is still in flight, and the
    next back press starts a second hide run. *)
Lemma C5_second_hide_after_commit : ~ no_duplicate_hide_sequences.
Proof.
  intros H.
  specialize (H (sample_props true) [HardwareBackPress; Render (sample_props true)]
                HardwareBackPress
                {| Animated.run_id := 1;
                   Animated.run_config := hide_config 1%float;
                   Animated.run_callback := hide_callback |}).
  cbv zeta in H.
  assert (Hh : hiding (run [HardwareBackPress; Render (sample_props true)]
                         (mount (sample_props true)))
                 {| Animated.run_id := 1;
                    Animated.run_config := hide_config 1%float;
                    Animated.run_callback := hide_callback |})
    by (split; reflexivity).
  specialize (H Hh I). vm_compute in H. discriminate H.
Qed.

(** C5, amended.  [hideModal] returns the state as it is, trace included,
    when the closure was created in a render with [rendered] false or the
    visibility flag is already down; in reachable states the closure of the
    last render carries the current [rendered].  When it passes the guard it
    lowers the flag and starts one hide run.  Hence a series of dismissal
    triggers (back press, backdrop press, accessibility escape, render with a
    false intent) starts at most one hide run, and none when the flag is
    down at its start.  The flag goes up again only in a step that commits a
    render with a true intent. *)
Theorem C5_hideModal_guard :
  (forall f st, fn_rendered f = false \/ visibleRef st = false -> hideModal f st = st)
  /\ (forall p es,
        fn_rendered (hideModal_memo (run es (mount p))) = rendered (run es (mount p)))
  /\ (forall f st, fn_rendered f = true -> visibleRef st = true ->
        visibleRef (hideModal f st) = false
        /\ count hide_started (trace (hideModal f st))
           = S (count hide_started (trace st)))
  /\ (forall p es ts, Forall dismissal_trigger ts ->
        count hide_started (trace (run ts (run es (mount p))))
        <= count hide_started (trace (run es (mount p)))
           + (if visibleRef (run es (mount p)) then 1 else 0))
  /\ (forall p es e,
        visibleRef (run es (mount p)) = false ->
        visibleRef (step e (run es (mount p))) = true ->
        visible (props (step e (run es (mount p)))) = true
        /\ ((exists p', e = Render p') \/ (exists reaction, e = AnimationEnd reaction))).
Proof.
  split; [exact hideModal_guard|]. split; [|split; [|split]].
  - intros p es. exact (inv_memo_r _ (reachable_Inv p es)).
  - intros f st Hf Hv. rewrite visibleRef_hideModal, trace_hideModal, Hf, Hv.
    split; [reflexivity|]. rewrite count_app.
    unfold start_actions, stop_actions, count.
    destruct (Animated.animation (opacity st)); simpl; lia.
  - intros p es ts F.
    pose proof (triggers_budget ts (run es (mount p)) F) as H.
    unfold hide_budget in H.
    destruct (visibleRef (run ts _)); lia.
  - intros p es e. apply flag_raised_by_commit.
Qed.

Lemma C5_hideModal_guard_witness :
  hideModal (hideModal_memo (mount (sample_props false))) (mount (sample_props false))
  = mount (sample_props false)
  /\ count hide_started
       (trace (run [HardwareBackPress; BackdropPress; AccessibilityEscape;
                    Render (sample_props false)]
                 (run [] (mount (sample_props true)))))
     <= count hide_started (trace (run [] (mount (sample_props true))))
        + (if visibleRef (run [] (mount (sample_props true))) then 1 else 0).
Proof.
  destruct C5_hideModal_guard as (H1 & _ & _ & H4 & _).
  split.
  - apply H1. left. reflexivity.
  - apply H4. repeat constructor.
Defined.

(** C6. In every reachable state whose content is rendered: with
    [dismissable] false a backdrop press changes nothing; with [dismissable]
    true it calls [hideModal], which, unless a hide is already under way,
    lowers the visibility flag and starts the run towards 0. *)
Theorem C6_backdrop_press (p : ModalProps) (es : list Event) :
  let st := run es (mount p) in
  mounted st = true ->
  rendered st = true ->
  (dismissable (props st) = false -> step BackdropPress st = st)
  /\ (dismissable (props st) = true ->
      step BackdropPress st = hideModal (hideModal_memo st) st
      /\ (visibleRef st = true ->
          visibleRef (step BackdropPress st) = false
          /\ opacity (step BackdropPress st)
             = started (opacity st) (next_run st)
                 (hide_config (scale (props st))) hide_callback)).
Proof.
  intros st Hm Hr. pose proof (reachable_Inv p es) as I. fold st in I.
  simpl. unfold backdropPress, output, Modal_return. rewrite Hm, Hr. simpl.
  split.
  - intros ->. simpl. now destruct (visible (props st)).
  - intros ->. simpl.
    assert (E : (if visible (props st) then pe_auto else pe_none) = pe_auto
                \/ hideModal (hideModal_memo st) st = st).
    { destruct (visible (props st)) eqn:V; [now left|right].
      apply hideModal_guard. right.
      destruct (visibleRef st) eqn:R; [|reflexivity].
      rewrite (inv_ref st I R) in V. discriminate. }
    assert (E' : match (if visible (props st) then pe_auto else pe_none) with
                 | pe_auto => hideModal (hideModal_memo st) st
                 | pe_none => st
                 end = hideModal (hideModal_memo st) st).
    { destruct E as [-> | E]; [reflexivity|]. rewrite E. now destruct (visible (props st)). }
    rewrite E'. split; [reflexivity|].
    intros Hv. rewrite visibleRef_hideModal, opacity_hideModal.
    rewrite (inv_memo_r st I), (inv_memo_s st I), Hr, Hv. split; reflexivity.
Qed.

Lemma C6_backdrop_press_witness :
  step BackdropPress (mount (sample_props true))
  = hideModal (hideModal_memo (mount (sample_props true))) (mount (sample_props true))
  /\ step BackdropPress
       (mount (undismissable_props true))
     = mount (undismissable_props true).
Proof.
  split.
  - apply (C6_backdrop_press (sample_props true) []); reflexivity.
  - apply (C6_backdrop_press
             (undismissable_props true) []); reflexivity.
Defined.

(** C7. For a mounted instance in a reachable state and any props [p']: the
    marker equals the rendered intent after the commit, whatever the check
    found; the check fires exactly when the intent differs from the committed
    one, and does not fire again on the next render with the same props;
    rendering twice with the same props is the same as rendering once; and a
    render that keeps the intent starts no run and leaves [rendered] and the
    opacity as they were.  The transition effect, in whatever state it runs,
    calls [showModal] once when the check fires with a true intent,
    [hideModal] once when it fires with a false intent, and neither when it
    does not fire.  Accordingly a render that changes the intent from false
    to true starts exactly one run, the show run, and a render with a false
    intent starts none (the flag is already down when [hideModal] is
    called). *)
Theorem C7_rerender_idempotent (p : ModalProps) (es : list Event) (p' : ModalProps) :
  let st := run es (mount p) in
  mounted st = true ->
  prevVisible (step (Render p') st) = Some (visible p')
  /\ (transition_detected p' st = true <-> visible p' <> visible (props st))
  /\ transition_detected p' (step (Render p') st) = false
  /\ step (Render p') (step (Render p') st) = step (Render p') st
  /\ (visible p' = visible (props st) ->
      opacity (step (Render p') st) = opacity st
      /\ rendered (step (Render p') st) = rendered st
      /\ count any_started (trace (step (Render p') st))
         = count any_started (trace st))
  /\ (forall s,
        effect_transition p' s
        = set_prevVisible (Some (visible p'))
            (if transition_detected p' s
             then if visible p' then showModal (scale p') s
                  else hideModal (hideModal_memo s) s
             else s))
  /\ (visible (props st) = false -> visible p' = true ->
      opacity (step (Render p') st)
      = started (opacity st) (next_run st) (show_config (scale p')) no_callback
      /\ count any_started (trace (step (Render p') st))
         = S (count any_started (trace st)))
  /\ (visible p' = false ->
      opacity (step (Render p') st) = opacity st
      /\ count any_started (trace (step (Render p') st))
         = count any_started (trace st)).
Proof.
  intros st Hm. pose proof (reachable_Inv p es) as I. fold st in I.
  destruct (update_fields p' st Hm) as (H1 & H2 & H3 & H4 & H5 & _).
  destruct (update_frame p' st Hm) as [Et Eo].
  pose proof (count_update any_started p' st Hm (fun _ _ => eq_refl) any_started_neutral)
    as Ec.
  pose proof (intent_false_starts_no_run p' st Hm) as Hfalse.
  simpl. rewrite Hm, H1.
  split; [exact H5|]. split; [exact (detected_iff p' st I)|].
  split; [|split; [|split; [|split; [reflexivity|split]]]];
    [| | |intros Hv Hv'; rewrite Eo, Ec, (shows_eq p' st I), Hv, Hv'; split; reflexivity
     |intros Hv'; destruct (Hfalse Hv') as [Hc Ho]; split; assumption].
  - unfold transition_detected. rewrite H5. now rewrite eqb_reflx.
  - apply update_idempotent; auto using inv_fn, Inv_sub_mounted.
  - intros Hv. rewrite H4, Eo, Et, (shows_eq p' st I), Hv.
    unfold show_actions. rewrite (shows_eq p' st I), Hv.
    assert (Hn : negb (visible (props st)) && visible (props st) = false)
      by now destruct (visible (props st)).
    rewrite Hn. split; [reflexivity|]. split.
    + destruct (visible (props st)) eqn:V; [|apply orb_false_r].
      now rewrite (inv_rendered st I V).
    + rewrite !count_app.
      rewrite (count_neutral any_started (resub_actions _ _ _));
        [reflexivity | apply any_started_neutral | apply resub_actions_neutral].
Qed.

Lemma C7_rerender_idempotent_witness :
  let st := run [] (mount (sample_props true)) in
  mounted st = true
  /\ step (Render (sample_props true)) (step (Render (sample_props true)) st)
     = step (Render (sample_props true)) st
  /\ opacity (step (Render (sample_props true)) st) = opacity st.
Proof.
  intros st.
  destruct (C7_rerender_idempotent (sample_props true) [] (sample_props true) eq_refl)
    as (_ & _ & _ & H4 & H5 & _).
  split; [reflexivity|]. split; [exact H4 | exact (proj1 (H5 eq_refl))].
Defined.

(** C8, as worded, fails: re-rendering a visible modal with [dismissable]
    changed removes the subscription and adds a new one although the intent
    did not change. *)
Lemma C8_resubscribed_without_intent_change : ~ subscription_in_step_with_intent.
Proof.
  intros H.
  destruct (H (sample_props true) []
              (undismissable_props true) eq_refl) as [_ [H2 _]].
  assert (R : In Removed
            (emitted (run [] (mount (sample_props true)))
               (step (Render (undismissable_props true))
                  (run [] (mount (sample_props true)))))).
  { vm_compute. right. left. reflexivity. }
  destruct (H2 R) as [_ V]. discriminate V.
Qed.

(** C8, amended.  In every reachable state the subscription is held exactly
    when the intent is true and the instance is mounted, and destroying the
    instance releases it: destruction while the intent is true removes the
    listener and ends the run in flight, if any, with [finished = false],
    leaving no run in flight.  A render releases the held subscription and
    acquires a new one exactly when a dependency of the effect
    ([dismissable], [dismissableBackButton], [hideModal], [visible]) changed:
    it acquires when one changed and the new intent is true, releases when
    one changed and the old intent was true; a change of the intent is such a
    change. *)
Theorem C8_subscription_follows_dependencies (p : ModalProps) (es : list Event) :
  let st := run es (mount p) in
  ((exists l, subscription st = Some l)
     <-> visible (props st) = true /\ mounted st = true)
  /\ subscription (step Unmount st) = None
  /\ (mounted st = true -> visible (props st) = true ->
      emitted st (step Unmount st)
      = Removed :: match Animated.animation (opacity st) with
                   | Some r => [Ended (Animated.run_id r) false]
                   | None => []
                   end
      /\ Animated.animation (opacity (step Unmount st)) = None)
  /\ (forall p', mounted st = true ->
      let st' := step (Render p') st in
      let changed :=
        deps_changed (props st) (hideModal_memo st) p' (hideModal_memo st') in
      (In Subscribed (emitted st st') <-> changed = true /\ visible p' = true)
      /\ (In Removed (emitted st st') <-> changed = true /\ visible (props st) = true)
      /\ (visible p' <> visible (props st) -> changed = true)).
Proof.
  intros st. pose proof (reachable_Inv p es) as Hinv. fold st in Hinv.
  pose proof (inv_sub st Hinv) as S.
  split; [|split; [|split]].
  - rewrite S. destruct (mounted st), (visible (props st)); simpl;
      split; try (intros [l Hl]; discriminate); try (intros [? ?]; discriminate); eauto.
  - simpl. destruct (mounted st) eqn:Hm.
    + rewrite unmount_eq. reflexivity.
    + rewrite S. reflexivity.
  - intros Hm Hv. simpl. rewrite Hm, unmount_eq. split; [|reflexivity].
    apply emitted_app. simpl. rewrite S, Hm, Hv. reflexivity.
  - intros p' Hm st' changed.
    assert (Est : st' = update p' st) by (unfold st'; simpl; now rewrite Hm).
    destruct (update_frame p' st Hm) as [Et _].
    rewrite <- Est in Et. fold changed in Et.
    rewrite app_assoc in Et. rewrite (emitted_app st st' _ Et).
    assert (Hshow : forall a, neutral a -> ~ In a (show_actions p' st)).
    { intros a Ha. unfold show_actions, start_actions, stop_actions.
      destruct (shows p' st); simpl; [|tauto].
      destruct (Animated.animation (opacity st)); simpl; intros H;
        repeat (destruct H as [<-|H]; [exact Ha|]); exact H. }
    rewrite Hm in S. simpl in S.
    pose proof (Hshow Subscribed I) as Hs. pose proof (Hshow Removed I) as Hr.
    split; [|split].
    + rewrite in_app_iff. unfold resub_actions. rewrite S.
      destruct changed, (visible p'), (visible (props st)); simpl;
        intuition (discriminate || congruence).
    + rewrite in_app_iff. unfold resub_actions. rewrite S.
      destruct changed, (visible p'), (visible (props st)); simpl;
        intuition (discriminate || congruence).
    + intros Hv. unfold changed, deps_changed.
      destruct (visible p'), (visible (props st)); try congruence;
        simpl; now rewrite andb_false_r.
Qed.

Lemma C8_subscription_follows_dependencies_witness :
  let st := run [] (mount (sample_props true)) in
  let st' := step (Render (sample_props false)) st in
  mounted st = true /\ visible (props st) = true
  /\ emitted st (step Unmount st) = [Removed; Ended 0 false]
  /\ (In Removed (emitted st st')
      <-> deps_changed (props st) (hideModal_memo st) (sample_props false)
            (hideModal_memo st') = true
          /\ visible (props st) = true).
Proof.
  intros st st'.
  destruct (C8_subscription_follows_dependencies (sample_props true) [])
    as (_ & _ & H3 & H4).
  split; [reflexivity|]. split; [reflexivity|].
  split; [exact (proj1 (H3 eq_refl eq_refl))|].
  exact (proj1 (proj2 (H4 (sample_props false) eq_refl))).
Defined.

(** C9. The runs the component starts are tied to the scale of the active
    theme.  The base constant is 220.  The run started at creation, and every
    run started in a later step (a render, a dismissal request, a completion),
    is either a show run or a hide run whose duration is the product, rounded
    as the code computes it, of 220 and the theme scale of the props then in
    force; both use the ease-out cubic easing and the native driver, and they
    differ in the target (1 and 0) and in the completion callback.  In
    particular a render that changes the intent from false to true puts in
    flight a show run with the scale of the new props, and an escape gesture
    received with the flag up puts in flight a hide run with the scale of the
    current props, as does a direct call of the memoised [hideModal].  Every
    run in the history has one of the two shapes. *)
Theorem C9_timing_parameters (p : ModalProps) (es : list Event) :
  let st := run es (mount p) in
  let s := scale (props st) in
  let timing (target s : number) :=
    {| Animated.toValue := target;
       Animated.duration := (s * 220)%float;
       Animated.easing := Easing.out Easing.cubic;
       Animated.useNativeDriver := true |} in
  DEFAULT_DURATION = 220%float
  /\ (forall id c cb, In (Started id c cb) (trace (mount p)) ->
      c = timing 1%float (scale p) /\ cb = no_callback)
  /\ (forall e id c cb, In (Started id c cb) (emitted st (step e st)) ->
      (c = timing 1%float (scale (props (step e st))) /\ cb = no_callback)
      \/ (c = timing 0%float (scale (props (step e st))) /\ cb = hide_callback))
  /\ (forall p', mounted st = true -> visible (props st) = false ->
      visible p' = true ->
      Animated.animation (opacity (step (Render p') st))
      = Some {| Animated.run_id := next_run st;
                Animated.run_config := timing 1%float (scale p');
                Animated.run_callback := no_callback |})
  /\ (mounted st = true -> rendered st = true -> visibleRef st = true ->
      Animated.animation (opacity (step AccessibilityEscape st))
      = Some {| Animated.run_id := next_run st;
                Animated.run_config := timing 0%float s;
                Animated.run_callback := hide_callback |})
  /\ (rendered st = true -> visibleRef st = true ->
      Animated.animation (opacity (hideModal (hideModal_memo st) st))
      = Some {| Animated.run_id := next_run st;
                Animated.run_config := timing 0%float s;
                Animated.run_callback := hide_callback |})
  /\ (forall id c cb, In (Started id c cb) (trace st) ->
      exists s',
        Animated.duration c = (s' * 220)%float
        /\ Animated.easing c = Easing.out Easing.cubic
        /\ Animated.useNativeDriver c = true
        /\ ((Animated.toValue c = 1%float /\ cb = no_callback)
            \/ (Animated.toValue c = 0%float /\ cb = hide_callback))).
Proof.
  intros st s timing.
  pose proof (reachable_Inv p es) as I. pose proof (reachable_TInv p es) as T.
  fold st in I, T.
  assert (Hhide : rendered st = true -> visibleRef st = true ->
                  Animated.animation (opacity (hideModal (hideModal_memo st) st))
                  = Some {| Animated.run_id := next_run st;
                            Animated.run_config := timing 0%float s;
                            Animated.run_callback := hide_callback |}).
  { intros Hr Hv. rewrite opacity_hideModal.
    rewrite (inv_memo_r st I), (inv_memo_s st I), Hr, Hv. reflexivity. }
  split; [reflexivity|]. split; [|split; [|split; [|split; [|split]]]].
  - intros id c cb H. exact (started_in_mount p id c cb H).
  - intros e id c cb H. exact (started_in_step e st id c cb I H).
  - intros p' Hm Hv Hv'. destruct (update_frame p' st Hm) as [_ Eo].
    simpl. rewrite Hm, Eo, (shows_eq p' st I), Hv, Hv'. reflexivity.
  - intros Hm Hr Hv. simpl. unfold accessibilityEscape, output, Modal_return.
    rewrite Hm, Hr. simpl. exact (Hhide Hr Hv).
  - exact Hhide.
  - intros id c cb H.
    destruct (t_shape _ _ _ T id c cb H) as [s' [[-> ->]|[-> ->]]];
      exists s'; simpl; auto 10.
Qed.

Lemma C9_timing_parameters_witness :
  let brisk v := {| p_dismissable := None; p_dismissableBackButton := None;
                    visible := v;
                    theme := {| animation_scale := 1.1%float |} |} in
  let st := run [] (mount (brisk false)) in
  (mounted st = true /\ visible (props st) = false /\ visible (brisk true) = true)
  /\ Animated.animation (opacity (step (Render (brisk true)) st))
     = Some {| Animated.run_id := 0;
               Animated.run_config :=
                 {| Animated.toValue := 1%float;
                    Animated.duration := 242.00000000000003%float;
                    Animated.easing := Easing.out Easing.cubic;
                    Animated.useNativeDriver := true |};
               Animated.run_callback := no_callback |}.
Proof.
  intros brisk st. split; [repeat split|].
  destruct (C9_timing_parameters (brisk false) []) as (_ & _ & _ & H & _).
  exact (H (brisk true) eq_refl eq_refl eq_refl).
Defined.

(** C10. At creation the opacity cell holds 1 when the initial intent is true
    and 0 otherwise; with the intent initially true the first show run starts
    from 1 and targets 1, so nothing fades in on first mount; with the intent
    initially false no run is started. *)
Theorem C10_initial_opacity (p : ModalProps) :
  Animated.settled (opacity (mount p)) = (if visible p then 1%float else 0%float)
  /\ (visible p = true ->
      Animated.animation (opacity (mount p))
      = Some {| Animated.run_id := 0;
                Animated.run_config := show_config (scale p);
                Animated.run_callback := no_callback |}
      /\ Animated.toValue (show_config (scale p))
         = Animated.settled (opacity (mount p)))
  /\ (visible p = false -> Animated.animation (opacity (mount p)) = None).
Proof.
  unfold mount.
  match goal with |- context [commit true p ?s] =>
    destruct (commit_frame true p s) as [_ E] end.
  rewrite E. unfold shows, transition_detected; simpl.
  destruct (visible p); simpl; repeat split; auto; discriminate.
Qed.

Lemma C10_initial_opacity_witness :
  Animated.animation (opacity (mount (sample_props true)))
  = Some {| Animated.run_id := 0;
            Animated.run_config := show_config 1%float;
            Animated.run_callback := no_callback |}
  /\ Animated.animation (opacity (mount (sample_props false))) = None.
Proof.
  split.
  - apply (C10_initial_opacity (sample_props true)). reflexivity.
  - apply (C10_initial_opacity (sample_props false)). reflexivity.
Defined.

(** * Further properties of the component *)

(** ** Helper facts *)

Lemma count_pos f a t : In a t -> f a = true -> 1 <= count f t.
Proof.
  unfold count. induction t as [|b t IH]; simpl; intros Ha Hf; [contradiction|].
  destruct Ha as [->|Ha].
  - rewrite Hf. simpl. lia.
  - specialize (IH Ha Hf). destruct (f b); simpl; lia.
Qed.

Lemma running_shape st r :
  TInv st -> Animated.animation (opacity st) = Some r ->
  modal_run (Animated.run_config r) (Animated.run_callback r).
Proof.
  intros T A. destruct (t_running _ _ _ T r A) as (_ & _ & H).
  exact (t_shape _ _ _ T _ _ _ H).
Qed.

Lemma modal_run_target c cb :
  modal_run c cb ->
  Animated.toValue c = match cb with no_callback => 1%float | hide_callback => 0%float end.
Proof. intros [s [[-> ->]|[-> ->]]]; reflexivity. Qed.

Lemma update_subscription_raw p st :
  mounted st = true ->
  subscription (update p st)
  = if deps_changed (props st) (hideModal_memo st) p (hideModal_memo (update p st))
    then if visible p then Some (listener_of p (hideModal_memo (update p st))) else None
    else subscription st.
Proof.
  intros Hm.
  assert (Hf : hideModal_memo (update p st) = hideModal_memo (render_phase p st)).
  { unfold update.
    match goal with |- context [commit ?c p ?s] =>
      destruct (commit_fields c p s) as (_ & _ & _ & _ & _ & H & _) end.
    exact H. }
  rewrite Hf. unfold update.
  match goal with |- context [commit ?c p ?s] =>
    destruct (commit_fields c p s) as (_ & _ & _ & _ & _ & _ & _ & H) end.
  rewrite H. destruct (render_phase_frame p st Hm) as (_ & _ & _ & -> & _).
  reflexivity.
Qed.

(** ** The value at rest *)

Lemma invoke_true_fields r st :
  opacity (invoke r true st) = opacity st
  /\ mounted (invoke r true st) = mounted st
  /\ props (invoke r true st) = props st
  /\ visibleRef (invoke r true st) = visibleRef st
  /\ subscription (invoke r true st) = subscription st
  /\ hideModal_memo (invoke r true st) = hideModal_memo st
  /\ next_fn (invoke r true st) = next_fn st
  /\ next_run (invoke r true st) = next_run st
  /\ prevVisible (invoke r true st) = prevVisible st
  /\ rendered (invoke r true st)
     = match Animated.run_callback r with
       | no_callback => rendered st
       | hide_callback => rendered st && negb (mounted st)
       end.
Proof.
  rewrite invoke_true_eq. unfold setRendered.
  destruct (Animated.run_callback r); simpl; [auto 12|].
  destruct (mounted st) eqn:Hm; simpl; rewrite ?Hm, ?andb_true_r, ?andb_false_r; auto 12.
Qed.

Lemma step_at_rest e st :
  Inv st -> TInv st -> at_rest_ok st -> at_rest_ok (step e st).
Proof.
  intros I T [H01 H0].
  assert (Hhide : at_rest_ok (hideModal (hideModal_memo st) st)).
  { split; rewrite opacity_hideModal, ?rendered_hideModal.
    - destruct (fn_rendered (hideModal_memo st) && visibleRef st); exact H01.
    - intros Hr. rewrite (inv_memo_r st I), Hr. simpl. auto. }
  pose proof (request_closure e st I) as Rq.
  destruct e as [p| | | |reaction|].
  - simpl. destruct (mounted st) eqn:Hm; [|split; assumption].
    destruct (update_fields p st Hm) as (_ & _ & _ & H4 & _).
    destruct (update_frame p st Hm) as [_ Eo].
    split; rewrite Eo, ?H4.
    + destruct (shows p st); exact H01.
    + intros Hr. apply orb_false_iff in Hr as [Hr Hv].
      unfold shows. rewrite Hv, andb_false_r. auto.
  - destruct Rq as [-> | ->]; [split|]; assumption.
  - destruct Rq as [-> | ->]; [split|]; assumption.
  - destruct Rq as [-> | ->]; [split|]; assumption.
  - simpl. unfold animationEnd.
    destruct (Animated.animation (opacity st)) as [r|] eqn:A; [|split; assumption].
    pose proof (modal_run_target _ _ (running_shape st r T A)) as Ht.
    match goal with |- context [invoke r true ?s] =>
      destruct (invoke_true_fields r s) as (F1 & F2 & _ & _ & _ & _ & _ & _ & _ & F10);
      set (st1 := invoke r true s) in * end.
    simpl in F1, F2, F10.
    destruct (Animated.run_callback r) eqn:C.
    + split; rewrite F1; simpl; rewrite Ht; [now right|].
      rewrite F10. intros Hr. rewrite (H0 Hr) in A. discriminate.
    + destruct (mounted st1) eqn:Hm.
      * match goal with |- at_rest_ok (update ?q st1) =>
          destruct (update_fields q st1 Hm) as (_ & _ & _ & H4 & _);
          destruct (update_frame q st1 Hm) as [_ Eo];
          split; rewrite Eo, ?H4, F1;
          [destruct (shows q st1); simpl; rewrite Ht; now left|];
          intros Hr; apply orb_false_iff in Hr as [_ Hv];
          unfold shows; rewrite Hv, andb_false_r, Ht; reflexivity
        end.
      * split; rewrite F1; simpl; rewrite Ht; [now left | reflexivity].
  - simpl. destruct (mounted st); [|split; assumption].
    rewrite unmount_eq. split; simpl; [exact H01|].
    intros Hr. now rewrite (H0 Hr).
Qed.

Lemma mount_at_rest p : at_rest_ok (mount p).
Proof.
  unfold mount.
  match goal with |- at_rest_ok (commit true p ?s) =>
    destruct (commit_frame true p s) as [_ Eo];
    destruct (commit_fields true p s) as (_ & _ & _ & H4 & _)
  end.
  split; rewrite Eo, ?H4.
  - simpl. destruct (shows p _), (visible p); simpl; auto.
  - cbn [rendered]. intros Hv. unfold shows. rewrite Hv, andb_false_r.
    reflexivity.
Qed.

Lemma reachable_at_rest p es : at_rest_ok (run es (mount p)).
Proof.
  assert (G : forall es st, Inv st -> TInv st -> at_rest_ok st -> at_rest_ok (run es st)).
  { clear. induction es as [|e es IH]; intros st I T H; simpl; [assumption|].
    apply IH; auto using step_Inv, step_TInv, step_at_rest. }
  apply G; auto using mount_Inv, mount_TInv, mount_at_rest.
Qed.

(** ** The flag and the hide run *)

Lemma hideModal_flag_ok f st : flag_ok st -> flag_ok (hideModal f st).
Proof.
  intros H. unfold flag_ok, hiding.
  rewrite mounted_hideModal, props_hideModal, visibleRef_hideModal, opacity_hideModal.
  intros Hm Hv Hf.
  destruct (fn_rendered f) eqn:R, (visibleRef st) eqn:V; simpl in *; try discriminate.
  - eexists. split; reflexivity.
  - exact (H Hm Hv V).
  - exact (H Hm Hv V).
Qed.

Lemma update_flag_ok p st : mounted st = true -> flag_ok (update p st).
Proof.
  intros Hm. destruct (update_fields p st Hm) as (_ & H2 & H3 & _).
  unfold flag_ok. rewrite H2, H3. congruence.
Qed.

Lemma step_flag_ok e st : Inv st -> flag_ok st -> flag_ok (step e st).
Proof.
  intros I H. pose proof (request_closure e st I) as Rq.
  destruct e as [p| | | |reaction|].
  - simpl. destruct (mounted st) eqn:Hm; [now apply update_flag_ok | assumption].
  - destruct Rq as [-> | ->]; auto using hideModal_flag_ok.
  - destruct Rq as [-> | ->]; auto using hideModal_flag_ok.
  - destruct Rq as [-> | ->]; auto using hideModal_flag_ok.
  - simpl. unfold animationEnd.
    destruct (Animated.animation (opacity st)) as [r|] eqn:A; [|assumption].
    match goal with |- context [invoke r true ?s] =>
      destruct (invoke_true_fields r s) as (F1 & F2 & F3 & F4 & _);
      set (st1 := invoke r true s) in * end.
    simpl in F1, F2, F3, F4.
    destruct (Animated.run_callback r) eqn:C.
    + unfold flag_ok. rewrite F2, F3, F4. intros Hm Hv Hf.
      destruct (H Hm Hv Hf) as [r' [A' C']]. rewrite A in A'. injection A' as <-.
      rewrite C in C'. discriminate.
    + destruct (mounted st1) eqn:Hm; [now apply update_flag_ok|].
      unfold flag_ok. rewrite Hm. discriminate.
  - simpl. destruct (mounted st) eqn:Hm; [|assumption].
    rewrite unmount_eq. unfold flag_ok. simpl. discriminate.
Qed.

Lemma mount_flag_ok p : flag_ok (mount p).
Proof.
  unfold mount.
  match goal with |- flag_ok (commit true p ?s) =>
    destruct (commit_fields true p s) as (_ & H2 & H3 & _) end.
  unfold flag_ok. rewrite H2, H3. congruence.
Qed.

Lemma reachable_flag_ok p es : flag_ok (run es (mount p)).
Proof.
  assert (G : forall es st, Inv st -> flag_ok st -> flag_ok (run es st)).
  { clear. induction es as [|e es IH]; intros st I H; simpl; [assumption|].
    apply IH; auto using step_Inv, step_flag_ok. }
  apply G; auto using mount_Inv, mount_flag_ok.
Qed.

(** ** Listeners added and removed *)

Lemma count_resub_actions changed p st :
  count is_subscribed (resub_actions changed p st)
  = (if changed && visible p then 1 else 0)
  /\ count is_removed (resub_actions changed p st)
     = (if changed then held st else 0).
Proof.
  unfold resub_actions, held, count.
  destruct changed, (visible p), (subscription st); simpl; auto.
Qed.

Lemma count_show_actions_zero f p st :
  (forall id c cb, f (Started id c cb) = false) ->
  (forall id b, f (Ended id b) = false) ->
  count f (show_actions p st) = 0.
Proof.
  intros H1 H2. rewrite count_show_actions by assumption.
  now rewrite H1, andb_false_r.
Qed.

Lemma update_balanced p st : mounted st = true -> balanced st -> balanced (update p st).
Proof.
  intros Hm B. unfold balanced, held in *.
  destruct (update_frame p st Hm) as [Et _].
  rewrite Et, (update_subscription_raw p st Hm), !count_app.
  rewrite !count_show_actions_zero by reflexivity.
  match goal with |- context [resub_actions ?c p st] =>
    destruct (count_resub_actions c p st) as [-> ->]; destruct c end;
    unfold held; destruct (visible p), (subscription st); simpl in *; lia.
Qed.

Lemma hideModal_balanced f st : balanced st -> balanced (hideModal f st).
Proof.
  unfold balanced, held. rewrite subscription_hideModal, !count_hideModal by reflexivity.
  simpl. rewrite !andb_false_r. auto.
Qed.

Lemma step_balanced e st : Inv st -> balanced st -> balanced (step e st).
Proof.
  intros I B. pose proof (request_closure e st I) as Rq.
  destruct e as [p| | | |reaction|].
  - simpl. destruct (mounted st) eqn:Hm; [now apply update_balanced | assumption].
  - destruct Rq as [-> | ->]; auto using hideModal_balanced.
  - destruct Rq as [-> | ->]; auto using hideModal_balanced.
  - destruct Rq as [-> | ->]; auto using hideModal_balanced.
  - simpl. unfold animationEnd.
    destruct (Animated.animation (opacity st)) as [r|] eqn:A; [|assumption].
    match goal with |- context [invoke r true ?s] =>
      destruct (invoke_true_fields r s) as (_ & _ & _ & _ & F5 & _);
      pose proof (trace_invoke_true r s) as Et;
      set (st1 := invoke r true s) in * end.
    simpl in F5, Et.
    assert (B1 : balanced st1).
    { unfold balanced, held in *. rewrite F5, Et, !count_app.
      unfold finish_actions, count at 1 3.
      destruct (Animated.run_callback r); simpl; exact B. }
    destruct (Animated.run_callback r); [exact B1|].
    destruct (mounted st1) eqn:Hm; [now apply update_balanced | exact B1].
  - simpl. destruct (mounted st) eqn:Hm; [|assumption].
    rewrite unmount_eq. unfold balanced, held in *.
    cbn [trace subscription set_mounted set_subscription set_trace].
    rewrite !count_app. unfold stop_actions, count in *.
    destruct (subscription st), (Animated.animation (opacity st)); simpl in *; lia.
Qed.

Lemma mount_balanced p : balanced (mount p).
Proof.
  unfold mount, balanced, held.
  match goal with |- context [commit true p ?s] =>
    destruct (commit_frame true p s) as [Et _];
    destruct (commit_fields true p s) as (_ & _ & _ & _ & _ & _ & _ & Hs)
  end.
  rewrite Et, Hs, !count_app, !count_show_actions_zero by reflexivity.
  match goal with |- context [resub_actions true p ?s] =>
    destruct (count_resub_actions true p s) as [-> ->] end.
  unfold held. simpl. destruct (visible p); reflexivity.
Qed.

Lemma reachable_balanced p es : balanced (run es (mount p)).
Proof.
  assert (G : forall es st, Inv st -> balanced st -> balanced (run es st)).
  { clear. induction es as [|e es IH]; intros st I H; simpl; [assumption|].
    apply IH; auto using step_Inv, step_balanced. }
  apply G; auto using mount_Inv, mount_balanced.
Qed.

(** ** Runs of renders and completions only *)

Lemma step_never_hidden e st :
  TInv st -> intent_only e -> never_hidden st ->
  never_hidden (step e st) /\ (rendered st = true -> rendered (step e st) = true).
Proof.
  intros T He [Hm H0].
  destruct e as [p| | | |reaction|]; try contradiction; simpl.
  - rewrite Hm.
    destruct (update_fields p st Hm) as (M & _ & _ & H4 & _).
    split; [split; [exact M|] | rewrite H4; now intros ->].
    rewrite count_update by (assumption || reflexivity || apply hide_started_neutral).
    simpl. rewrite andb_false_r. exact H0.
  - unfold animationEnd.
    destruct (Animated.animation (opacity st)) as [r|] eqn:A; [|repeat split; auto].
    destruct (t_running _ _ _ T r A) as (_ & _ & S).
    destruct (Animated.run_callback r) eqn:C.
    + destruct (invoke_true_fields r
                  (set_opacity {| Animated.settled := Animated.toValue (Animated.run_config r);
                                  Animated.animation := None |} st))
        as (_ & F2 & _ & _ & _ & _ & _ & _ & _ & F10).
      rewrite C in F10. simpl in F2, F10.
      split; [split; [rewrite F2; exact Hm|] | rewrite F10; auto].
      rewrite trace_invoke_true. unfold finish_actions. rewrite C. simpl.
      rewrite count_cons. exact H0.
    + pose proof (count_pos hide_started _ _ S eq_refl). lia.
Qed.

Lemma mount_never_hidden p : never_hidden (mount p).
Proof.
  split.
  - unfold mount.
    match goal with |- context [commit true p ?s] =>
      destruct (commit_fields true p s) as (H1 & _) end.
    exact H1.
  - unfold mount.
    match goal with |- context [commit true p ?s] =>
      destruct (commit_frame true p s) as [Et _] end.
    rewrite Et, !count_app, count_show_actions by reflexivity.
    rewrite (count_neutral hide_started (resub_actions _ _ _));
      [|apply hide_started_neutral | apply resub_actions_neutral].
    cbn [hide_started]. now rewrite andb_false_r.
Qed.

Lemma run_never_hidden es st :
  TInv st -> Forall intent_only es -> never_hidden st ->
  never_hidden (run es st) /\ (rendered st = true -> rendered (run es st) = true).
Proof.
  revert st. induction es as [|e es IH]; intros st T F H; simpl; [auto|].
  inversion F as [|? ? He Hes]; subst.
  destruct (step_never_hidden e st T He H) as [H1 R1].
  destruct (IH (step e st) (step_TInv e st T) Hes H1) as [H2 R2].
  auto.
Qed.

(** ** Dismissal requests in a reachable state *)

Lemma back_press_eq st :
  Inv st -> mounted st = true -> visible (props st) = true ->
  hardwareBackPress st
  = (true,
     if dismissable (props st) || dismissableBackButton (props st)
     then hideModal (hideModal_memo st) st else st).
Proof.
  intros I Hm Hv. unfold hardwareBackPress. rewrite (inv_sub st I), Hm, Hv. reflexivity.
Qed.

Lemma backdrop_press_eq st :
  Inv st -> mounted st = true -> visible (props st) = true ->
  backdropPress st
  = if dismissable (props st) then hideModal (hideModal_memo st) st else st.
Proof.
  intros I Hm Hv. unfold backdropPress, output, Modal_return.
  rewrite Hm, (inv_rendered st I Hv), Hv. simpl.
  now destruct (dismissable (props st)).
Qed.

Lemma escape_eq st :
  mounted st = true ->
  accessibilityEscape st
  = if rendered st then hideModal (hideModal_memo st) st else st.
Proof.
  intros Hm. unfold accessibilityEscape, output, Modal_return. rewrite Hm.
  now destruct (rendered st).
Qed.

Lemma hideModal_passes st :
  Inv st -> visible (props st) = true -> visibleRef st = true ->
  visibleRef (hideModal (hideModal_memo st) st) = false
  /\ opacity (hideModal (hideModal_memo st) st)
     = started (opacity st) (next_run st) (hide_config (scale (props st))) hide_callback.
Proof.
  intros I Hv Hf. rewrite visibleRef_hideModal, opacity_hideModal.
  rewrite (inv_memo_r st I), (inv_memo_s st I), (inv_rendered st I Hv), Hf. auto.
Qed.

(** Completion of the hide run that a request started, followed by the
    re-render with the props [q] the owner then passes. *)
Lemma hide_completion st reaction :
  Inv st -> mounted st = true -> visible (props st) = true -> visibleRef st = true ->
  let q := match reaction with Some q => q | None => props st end in
  let st2 := animationEnd reaction (hideModal (hideModal_memo st) st) in
  mounted st2 = true /\ props st2 = q /\ rendered st2 = visible q
  /\ visibleRef st2 = visible q
  /\ opacity st2 = rest 0%float.
Proof.
  intros I Hm Hv Hf q st2.
  destruct (hideModal_passes st I Hv Hf) as [_ Eo].
  set (st1 := hideModal (hideModal_memo st) st) in *.
  assert (M1 : mounted st1 = true) by (unfold st1; now rewrite mounted_hideModal).
  assert (P1 : props st1 = props st) by (unfold st1; now rewrite props_hideModal).
  assert (V1 : prevVisible st1 = Some true).
  { unfold st1. rewrite hideModal_eq.
    destruct (fn_rendered _ && visibleRef st); simpl; now rewrite (inv_prev st I), Hv. }
  unfold st2, animationEnd. rewrite Eo. cbn [Animated.animation started Animated.run_callback
    Animated.run_config Animated.toValue hide_config].
  match goal with |- context [invoke ?r true ?s] =>
    destruct (invoke_true_fields r s) as (F1 & F2 & F3 & _ & _ & _ & _ & _ & F9 & F10);
    set (st1' := invoke r true s) in * end.
  cbn [opacity set_opacity mounted props prevVisible rendered Animated.run_callback] in *.
  rewrite F2, M1. rewrite F3, P1. fold q.
  assert (M1' : mounted st1' = true) by now rewrite F2.
  destruct (update_fields q st1' M1') as (H1 & H2 & H3 & H4 & _).
  destruct (update_frame q st1' M1') as [_ Eo'].
  rewrite H1, H2, H3, H4, Eo', F1, F10, M1.
  unfold shows, transition_detected. rewrite F9, V1. simpl.
  rewrite andb_false_r. simpl.
  repeat split. now destruct (visible q).
Qed.

(** ** Test identifiers *)

Lemma append_inj_r (s a b : String.string) :
  String.append s a = String.append s b -> a = b.
Proof.
  induction s as [|c s IH]; simpl; intros H; [assumption|].
  injection H as H. auto.
Qed.

Lemma append_length (s a : String.string) :
  String.length (String.append s a) = String.length s + String.length a.
Proof. induction s as [|c s IH]; simpl; auto. Qed.

Lemma append_neq_self (s a : String.string) :
  0 < String.length a -> s <> String.append s a.
Proof.
  intros Ha E. apply (f_equal String.length) in E.
  rewrite append_length in E. lia.
Qed.

(** * Further properties *)

(** X1. The accessibility escape gesture calls [hideModal] whenever the
    content is rendered, whatever [dismissable] and [dismissableBackButton]
    are; with the flag up it lowers the flag and starts the run towards 0.
    With nothing rendered it does nothing. *)
Theorem X1_escape_ignores_dismissable (p : ModalProps) (es : list Event) :
  let st := run es (mount p) in
  mounted st = true ->
  (rendered st = false -> step AccessibilityEscape st = st)
  /\ (rendered st = true ->
      step AccessibilityEscape st = hideModal (hideModal_memo st) st
      /\ (visibleRef st = true ->
          visibleRef (step AccessibilityEscape st) = false
          /\ opacity (step AccessibilityEscape st)
             = started (opacity st) (next_run st)
                 (hide_config (scale (props st))) hide_callback)).
Proof.
  intros st Hm. pose proof (reachable_Inv p es) as I. fold st in I.
  simpl. rewrite (escape_eq st Hm).
  split; intros Hr; rewrite Hr; [reflexivity|].
  split; [reflexivity|]. intros Hf.
  apply hideModal_passes; auto using inv_ref.
Qed.

Lemma X1_escape_ignores_dismissable_witness :
  let st := run [] (mount (undismissable_props true)) in
  (mounted st = true /\ rendered st = true /\ visibleRef st = true
   /\ dismissable (props st) = false /\ dismissableBackButton (props st) = false)
  /\ visibleRef (step AccessibilityEscape st) = false.
Proof.
  intros st. split; [repeat split|].
  destruct (X1_escape_ignores_dismissable (undismissable_props true) [] eq_refl)
    as [_ H].
  destruct (H eq_refl) as [_ H'].
  exact (proj1 (H' eq_refl)).
Defined.

(** X2. While the intent is true: with [dismissableBackButton] left
    undefined the back button does what a backdrop press does; when
    [dismissable] is true the back button calls [hideModal] whatever
    [dismissableBackButton] is (setting it to false alone does not switch
    the back button off); with [dismissable = false] and
    [dismissableBackButton = true] the back button calls [hideModal] and the
    backdrop does nothing. *)
Theorem X2_back_button_gating (p : ModalProps) (es : list Event) :
  let st := run es (mount p) in
  mounted st = true ->
  visible (props st) = true ->
  (p_dismissableBackButton (props st) = None ->
     step HardwareBackPress st = step BackdropPress st)
  /\ (dismissable (props st) = true ->
      step HardwareBackPress st = hideModal (hideModal_memo st) st)
  /\ (p_dismissable (props st) = Some false ->
      p_dismissableBackButton (props st) = Some true ->
      step HardwareBackPress st = hideModal (hideModal_memo st) st
      /\ step BackdropPress st = st).
Proof.
  intros st Hm Hv. pose proof (reachable_Inv p es) as I. fold st in I.
  simpl. rewrite (back_press_eq st I Hm Hv), (backdrop_press_eq st I Hm Hv). simpl.
  unfold dismissableBackButton, dismissable.
  split; [|split].
  - intros ->. now destruct (p_dismissable (props st)) as [[]|].
  - intros ->. reflexivity.
  - intros -> ->. auto.
Qed.

Lemma X2_back_button_gating_witness :
  let q := {| p_dismissable := None; p_dismissableBackButton := Some false;
              visible := true; theme := {| animation_scale := 1%float |} |} in
  let st := run [] (mount q) in
  (mounted st = true /\ visible (props st) = true /\ dismissable (props st) = true)
  /\ step HardwareBackPress st = hideModal (hideModal_memo st) st.
Proof.
  intros q st. split; [repeat split|].
  destruct (X2_back_button_gating q [] eq_refl eq_refl) as (_ & H & _).
  exact (H eq_refl).
Defined.

(** X3. While the intent is false, and after the instance is destroyed, no
    listener is registered and no dismissal request has any effect: a
    hardware back press is reported as not consumed, and a back press, a
    backdrop press and an escape gesture all leave the state as it is. *)
Theorem X3_requests_ignored_while_intent_false (p : ModalProps) (es : list Event) :
  let st := run es (mount p) in
  visible (props st) = false \/ mounted st = false ->
  subscription st = None
  /\ hardwareBackPress st = (false, st)
  /\ step BackdropPress st = st
  /\ step AccessibilityEscape st = st.
Proof.
  intros st H. pose proof (reachable_Inv p es) as I. fold st in I.
  assert (S : subscription st = None).
  { rewrite (inv_sub st I). destruct H as [-> | ->]; [rewrite andb_false_r|]; reflexivity. }
  assert (G : forall f, mounted st = true -> hideModal f st = st).
  { intros f Hm. apply hideModal_guard. right.
    destruct H as [Hv | Hm']; [|congruence].
    destruct (visibleRef st) eqn:R; [|reflexivity].
    rewrite (inv_ref st I R) in Hv. discriminate. }
  split; [exact S|]. split; [unfold hardwareBackPress; now rewrite S|].
  simpl. unfold backdropPress, accessibilityEscape, output.
  destruct (mounted st) eqn:Hm; [|auto].
  destruct (Modal_return _ _ _) as [t|]; [|auto].
  split; [|now apply G].
  destruct (pointerEvents t); [|reflexivity].
  destruct (backdrop_disabled t); [reflexivity|].
  destruct (backdrop_onPress t); [now apply G | reflexivity].
Qed.

Lemma X3_requests_ignored_while_intent_false_witness :
  let st := run [Render (sample_props false)] (mount (sample_props true)) in
  (visible (props st) = false /\ rendered st = true)
  /\ hardwareBackPress st = (false, st)
  /\ step AccessibilityEscape st = st.
Proof.
  intros st. split; [split; reflexivity|].
  destruct (X3_requests_ignored_while_intent_false (sample_props true)
              [Render (sample_props false)] (or_introl eq_refl))
    as (_ & H2 & _ & H4).
  split; assumption.
Defined.

(** X4. A complete dismissal: in a shown state with the flag up, a back press
    that is allowed to dismiss, the completion of its hide run, and an owner
    that answers [onDismiss] by passing a false intent leave nothing
    rendered, no output, no listener, the value at rest at 0, and
    [onDismiss] called exactly once more. *)
Theorem X4_dismissal_cycle (p : ModalProps) (es : list Event) (p' : ModalProps) :
  let st := run es (mount p) in
  mounted st = true ->
  visible (props st) = true ->
  visibleRef st = true ->
  dismissable (props st) || dismissableBackButton (props st) = true ->
  visible p' = false ->
  let st2 := run [HardwareBackPress; AnimationEnd (Some p')] st in
  props st2 = p'
  /\ rendered st2 = false
  /\ output st2 = None
  /\ subscription st2 = None
  /\ opacity st2 = rest 0%float
  /\ visibleRef st2 = false
  /\ count any_dismissed (trace st2) = S (count any_dismissed (trace st)).
Proof.
  intros st Hm Hv Hf Hd Hv' st2.
  pose proof (reachable_Inv p es) as I. fold st in I.
  assert (E1 : step HardwareBackPress st = hideModal (hideModal_memo st) st).
  { simpl. rewrite (back_press_eq st I Hm Hv), Hd. reflexivity. }
  destruct (hide_completion st (Some p') I Hm Hv Hf) as (M2 & P2 & R2 & V2 & O2).
  assert (E2 : st2 = animationEnd (Some p') (hideModal (hideModal_memo st) st)).
  { change st2 with (step (AnimationEnd (Some p')) (step HardwareBackPress st)).
    rewrite E1. reflexivity. }
  rewrite <- E2 in M2, P2, R2, V2, O2. rewrite Hv' in R2, V2.
  assert (I2 : Inv st2).
  { replace st2 with (run (es ++ [HardwareBackPress; AnimationEnd (Some p')]) (mount p))
      by apply run_app.
    apply reachable_Inv. }
  repeat split; try assumption.
  - unfold output, Modal_return. now rewrite M2, R2.
  - rewrite (inv_sub st2 I2), P2, Hv', andb_false_r. reflexivity.
  - change st2 with (step (AnimationEnd (Some p')) (step HardwareBackPress st)).
    rewrite !dismissed_step, E1.
    destruct (hideModal_passes st I Hv Hf) as [_ ->].
    change (running_hide (started (opacity st) (next_run st)
                            (hide_config (scale (props st))) hide_callback)) with 1.
    lia.
Qed.

Lemma X4_dismissal_cycle_witness :
  let st := run [] (mount (sample_props true)) in
  let st2 := run [HardwareBackPress; AnimationEnd (Some (sample_props false))] st in
  (mounted st = true /\ visible (props st) = true /\ visibleRef st = true)
  /\ rendered st2 = false /\ output st2 = None
  /\ count any_dismissed (trace st2) = S (count any_dismissed (trace st)).
Proof.
  intros st st2. split; [repeat split|].
  destruct (X4_dismissal_cycle (sample_props true) [] (sample_props false)
              eq_refl eq_refl eq_refl eq_refl eq_refl)
    as (_ & H2 & H3 & _ & _ & _ & H7).
  repeat split; assumption.
Defined.

(** X5. An owner that does not lower the intent when [onDismiss] is called
    gets the content mounted again in the same commit ([setRendered(true)]
    during render): after the hide run completes the content is rendered,
    the value rests at 0, the flag is up, the listener is held and the root
    takes pointer input: the modal is transparent but present. *)
Theorem X5_owner_keeps_intent (p : ModalProps) (es : list Event) :
  let st := run es (mount p) in
  mounted st = true ->
  visible (props st) = true ->
  visibleRef st = true ->
  dismissable (props st) || dismissableBackButton (props st) = true ->
  let st2 := run [HardwareBackPress; AnimationEnd None] st in
  props st2 = props st
  /\ rendered st2 = true
  /\ visibleRef st2 = true
  /\ opacity st2 = rest 0%float
  /\ subscription st2 = Some (listener_of (props st) (hideModal_memo st2))
  /\ (exists t, output st2 = Some t /\ pointerEvents t = pe_auto)
  /\ count any_dismissed (trace st2) = S (count any_dismissed (trace st)).
Proof.
  intros st Hm Hv Hf Hd st2.
  pose proof (reachable_Inv p es) as I. fold st in I.
  assert (E1 : step HardwareBackPress st = hideModal (hideModal_memo st) st).
  { simpl. rewrite (back_press_eq st I Hm Hv), Hd. reflexivity. }
  destruct (hide_completion st None I Hm Hv Hf) as (M2 & P2 & R2 & V2 & O2).
  assert (E2 : st2 = animationEnd None (hideModal (hideModal_memo st) st)).
  { change st2 with (step (AnimationEnd None) (step HardwareBackPress st)).
    rewrite E1. reflexivity. }
  rewrite <- E2 in M2, P2, R2, V2, O2. rewrite Hv in R2, V2.
  assert (I2 : Inv st2).
  { replace st2 with (run (es ++ [HardwareBackPress; AnimationEnd None]) (mount p))
      by apply run_app.
    apply reachable_Inv. }
  repeat split; try assumption.
  - rewrite (inv_sub st2 I2), M2, P2, Hv. reflexivity.
  - unfold output, Modal_return. rewrite M2, R2, P2, Hv. simpl.
    eexists. split; reflexivity.
  - change st2 with (step (AnimationEnd None) (step HardwareBackPress st)).
    rewrite !dismissed_step, E1.
    destruct (hideModal_passes st I Hv Hf) as [_ ->].
    change (running_hide (started (opacity st) (next_run st)
                            (hide_config (scale (props st))) hide_callback)) with 1.
    lia.
Qed.

Lemma X5_owner_keeps_intent_witness :
  let st := run [] (mount (sample_props true)) in
  let st2 := run [HardwareBackPress; AnimationEnd None] st in
  (mounted st = true /\ visible (props st) = true /\ visibleRef st = true)
  /\ rendered st2 = true /\ opacity st2 = rest 0%float.
Proof.
  intros st st2. split; [repeat split|].
  destruct (X5_owner_keeps_intent (sample_props true) []
              eq_refl eq_refl eq_refl eq_refl)
    as (_ & H2 & _ & H4 & _).
  split; assumption.
Defined.

(** X6. When the owner only changes props and animations only complete (no
    back press, no backdrop press, no escape gesture), no hide run is ever
    started and [onDismiss] is never called: the transition effect does call
    [hideModal] when the intent goes to false, but the first effect has
    already lowered the flag and the guard returns.  Content that was
    rendered at some point of such a run is still rendered at its end. *)
Theorem X6_intent_changes_never_hide (p : ModalProps) (es : list Event) :
  Forall intent_only es ->
  let st := run es (mount p) in
  count hide_started (trace st) = 0
  /\ count any_dismissed (trace st) = 0
  /\ (forall es1 es2, es = es1 ++ es2 ->
        rendered (run es1 (mount p)) = true -> rendered st = true).
Proof.
  intros F st.
  destruct (run_never_hidden es (mount p) (mount_TInv p) F (mount_never_hidden p))
    as [[_ H0] _].
  fold st in H0.
  split; [exact H0|]. split.
  - pose proof (t_count _ _ _ (reachable_TInv p es)) as C. fold st in C. lia.
  - intros es1 es2 E Hr. subst es. apply Forall_app in F as [F1 F2].
    destruct (run_never_hidden es1 (mount p) (mount_TInv p) F1 (mount_never_hidden p))
      as [N1 _].
    destruct (run_never_hidden es2 (run es1 (mount p)) (reachable_TInv p es1) F2 N1)
      as [_ R].
    unfold st. rewrite run_app. auto.
Qed.

Lemma X6_intent_changes_never_hide_witness :
  let st := run [Render (sample_props false); AnimationEnd None]
              (mount (sample_props true)) in
  visible (props st) = false
  /\ count any_dismissed (trace st) = 0
  /\ rendered st = true.
Proof.
  intros st.
  assert (F : Forall intent_only [Render (sample_props false); AnimationEnd None])
    by (repeat constructor).
  destruct (X6_intent_changes_never_hide (sample_props true) _ F) as (_ & H2 & H3).
  split; [reflexivity|]. split; [exact H2|].
  apply (H3 [] [Render (sample_props false); AnimationEnd None] eq_refl).
  reflexivity.
Defined.

(** X7. In every reachable state the opacity value rests at 0 or at 1, and
    while nothing is rendered it rests at 0 with no run in flight. *)
Theorem X7_hidden_is_transparent_and_idle (p : ModalProps) (es : list Event) :
  let st := run es (mount p) in
  (Animated.settled (opacity st) = 0%float \/ Animated.settled (opacity st) = 1%float)
  /\ (rendered st = false -> opacity st = rest 0%float).
Proof. exact (reachable_at_rest p es). Qed.

Lemma X7_hidden_is_transparent_and_idle_witness :
  let st := run [HardwareBackPress; AnimationEnd (Some (sample_props false))]
              (mount (sample_props true)) in
  rendered st = false /\ opacity st = rest 0%float.
Proof.
  intros st. split; [reflexivity|].
  apply (X7_hidden_is_transparent_and_idle (sample_props true)
           [HardwareBackPress; AnimationEnd (Some (sample_props false))]).
  reflexivity.
Defined.

(** X8. Showing from hidden: when nothing is rendered and the owner passes a
    true intent, the content is mounted in that commit, the show run starts
    from 0 towards 1 with the scale of the new props, one listener is added
    with the closures of that render, and the root takes pointer input. *)
Theorem X8_show_from_hidden (p : ModalProps) (es : list Event) (p' : ModalProps) :
  let st := run es (mount p) in
  mounted st = true ->
  rendered st = false ->
  visible p' = true ->
  let st' := step (Render p') st in
  rendered st' = true
  /\ visibleRef st' = true
  /\ opacity st'
     = {| Animated.settled := 0%float;
          Animated.animation :=
            Some {| Animated.run_id := next_run st;
                    Animated.run_config := show_config (scale p');
                    Animated.run_callback := no_callback |} |}
  /\ subscription st' = Some (listener_of p' (hideModal_memo st'))
  /\ fn_rendered (hideModal_memo st') = true
  /\ emitted st st'
     = [Started (next_run st) (show_config (scale p')) no_callback; Subscribed]
  /\ (exists t, output st' = Some t /\ pointerEvents t = pe_auto
                /\ backdrop_disabled t = negb (dismissable p')).
Proof.
  intros st Hm Hr Hv' st'.
  pose proof (reachable_Inv p es) as I. fold st in I.
  destruct (reachable_at_rest p es) as [_ H0]. fold st in H0. specialize (H0 Hr).
  assert (Hv : visible (props st) = false).
  { destruct (visible (props st)) eqn:V; [|reflexivity].
    rewrite (inv_rendered st I V) in Hr. discriminate. }
  assert (Est : st' = update p' st) by (unfold st'; simpl; now rewrite Hm).
  assert (I' : Inv st').
  { rewrite Est. apply update_Inv; auto using inv_fn, Inv_sub_mounted. }
  destruct (update_fields p' st Hm) as (M & P & V & R & _).
  destruct (update_frame p' st Hm) as [Et Eo].
  rewrite <- Est in M, P, V, R, Et, Eo.
  assert (Hs : shows p' st = true) by now rewrite (shows_eq p' st I), Hv, Hv'.
  assert (Hc : deps_changed (props st) (hideModal_memo st) p' (hideModal_memo st') = true).
  { unfold deps_changed. now rewrite Hv, Hv', andb_false_r. }
  assert (Hsub : subscription st = None).
  { rewrite (inv_sub st I), Hv, andb_false_r. reflexivity. }
  rewrite R, Hr, V, Hv'.
  split; [reflexivity|]. split; [reflexivity|]. split; [|split; [|split; [|split]]].
  - rewrite Eo, Hs, H0. reflexivity.
  - rewrite (inv_sub st' I'), M, P, Hv'. reflexivity.
  - rewrite (inv_memo_r st' I'), R, Hr, Hv'. reflexivity.
  - apply emitted_app. rewrite Et. unfold show_actions, resub_actions.
    rewrite Hs, Hc, Hv', Hsub, H0. reflexivity.
  - unfold output, Modal_return. rewrite M, R, Hr, P, Hv'. simpl.
    eexists. split; [reflexivity|]. split; [reflexivity|]. apply orb_false_r.
Qed.

Lemma X8_show_from_hidden_witness :
  let st := run [] (mount (sample_props false)) in
  let st' := step (Render (sample_props true)) st in
  (mounted st = true /\ rendered st = false)
  /\ rendered st' = true
  /\ emitted st st'
     = [Started (next_run st) (show_config (scale (sample_props true))) no_callback;
        Subscribed].
Proof.
  intros st st'. split; [repeat split|].
  destruct (X8_show_from_hidden (sample_props false) [] (sample_props true)
              eq_refl eq_refl eq_refl)
    as (H1 & _ & _ & _ & _ & H6 & _).
  split; assumption.
Defined.

(** X9. While the intent is true a dismissal request is never lost: the flag
    is down only while a hide run is in flight, so after a backdrop press
    ([dismissable]), a back press ([dismissable] or [dismissableBackButton])
    or an escape gesture a hide run is in flight, started by the request or
    already under way. *)
Theorem X9_request_starts_or_joins_hide (p : ModalProps) (es : list Event) :
  let st := run es (mount p) in
  mounted st = true ->
  visible (props st) = true ->
  (visibleRef st = false -> exists r, hiding st r)
  /\ (dismissable (props st) = true -> exists r, hiding (step BackdropPress st) r)
  /\ (dismissable (props st) || dismissableBackButton (props st) = true ->
      exists r, hiding (step HardwareBackPress st) r)
  /\ (exists r, hiding (step AccessibilityEscape st) r).
Proof.
  intros st Hm Hv. pose proof (reachable_Inv p es) as I. fold st in I.
  pose proof (reachable_flag_ok p es) as K. fold st in K.
  assert (H : exists r, hiding (hideModal (hideModal_memo st) st) r).
  { apply (hideModal_flag_ok (hideModal_memo st) st K).
    - now rewrite mounted_hideModal.
    - now rewrite props_hideModal.
    - rewrite visibleRef_hideModal, (inv_memo_r st I), (inv_rendered st I Hv).
      apply andb_false_r. }
  split; [exact (K Hm Hv)|]. simpl.
  rewrite (back_press_eq st I Hm Hv), (backdrop_press_eq st I Hm Hv), (escape_eq st Hm).
  rewrite (inv_rendered st I Hv). simpl.
  split; [|split]; try assumption; intros ->; assumption.
Qed.

Lemma X9_request_starts_or_joins_hide_witness :
  let st := run [HardwareBackPress] (mount (sample_props true)) in
  (mounted st = true /\ visible (props st) = true /\ visibleRef st = false)
  /\ exists r, hiding st r.
Proof.
  intros st. split; [repeat split|].
  destruct (X9_request_starts_or_joins_hide (sample_props true) [HardwareBackPress]
              eq_refl eq_refl) as (H & _).
  exact (H eq_refl).
Defined.

(** X10. Completion of a show run ([start()] without callback) settles the
    value at 1 and does nothing else: no re-render, no call of [onDismiss],
    every hook cell and the listener as they were. *)
Theorem X10_show_completion (p : ModalProps) (es : list Event)
    (reaction : option ModalProps) (r : Animated.Run) :
  let st := run es (mount p) in
  Animated.animation (opacity st) = Some r ->
  Animated.run_callback r = no_callback ->
  step (AnimationEnd reaction) st
  = emit (Ended (Animated.run_id r) true) (set_opacity (rest 1%float) st).
Proof.
  intros st A C. pose proof (reachable_TInv p es) as T. fold st in T.
  pose proof (modal_run_target _ _ (running_shape st r T A)) as Ht. rewrite C in Ht.
  simpl. unfold animationEnd. rewrite A, invoke_true_eq, C, Ht. reflexivity.
Qed.

Lemma X10_show_completion_witness :
  let st := run [] (mount (sample_props true)) in
  let r := {| Animated.run_id := 0;
              Animated.run_config := show_config 1%float;
              Animated.run_callback := no_callback |} in
  Animated.animation (opacity st) = Some r
  /\ step (AnimationEnd None) st
     = emit (Ended (Animated.run_id r) true) (set_opacity (rest 1%float) st).
Proof.
  intros st r. split; [reflexivity|].
  exact (X10_show_completion (sample_props true) [] None r eq_refl eq_refl).
Defined.

(** X11. Mounting with a false intent is inert: although the transition
    effect calls [hideModal] on the first commit ([prevVisible.current] is
    null), nothing is rendered, so no run starts, [onDismiss] is not called,
    no listener is added and there is no output. *)
Theorem X11_mount_hidden_is_inert (p : ModalProps) :
  visible p = false ->
  trace (mount p) = []
  /\ output (mount p) = None
  /\ subscription (mount p) = None
  /\ opacity (mount p) = rest 0%float
  /\ prevVisible (mount p) = Some false.
Proof.
  intros Hv. unfold mount.
  match goal with |- context [commit true p ?s] =>
    destruct (commit_fields true p s) as (M & P & V & R & PV & _ & _ & S);
    destruct (commit_frame true p s) as [Et Eo]
  end.
  unfold output, Modal_return.
  rewrite M, R, PV, S, Et, Eo, Hv.
  unfold show_actions, shows, resub_actions. rewrite ?Hv, ?andb_false_r. simpl.
  rewrite ?Hv. repeat split.
Qed.

Lemma X11_mount_hidden_is_inert_witness :
  trace (mount (sample_props false)) = []
  /\ output (mount (sample_props false)) = None.
Proof.
  destruct (X11_mount_hidden_is_inert (sample_props false) eq_refl)
    as (H2 & H3 & _).
  split; assumption.
Defined.

(** X12. Listeners do not leak: in every reachable state the listeners added
    are the listeners removed plus the one held, at most one is held, and
    after the instance is destroyed every listener added has been removed. *)
Theorem X12_listeners_balanced (p : ModalProps) (es : list Event) :
  let st := run es (mount p) in
  count is_subscribed (trace st) = count is_removed (trace st) + held st
  /\ held st <= 1
  /\ (mounted st = false ->
      count is_subscribed (trace st) = count is_removed (trace st)).
Proof.
  intros st. pose proof (reachable_balanced p es) as B. fold st in B.
  unfold balanced in B.
  pose proof (inv_sub st (reachable_Inv p es)) as S.
  split; [exact B|]. split.
  - unfold held. destruct (subscription st); lia.
  - intros Hm. rewrite Hm in S. unfold held in B. rewrite S in B. simpl in B. lia.
Qed.

Lemma X12_listeners_balanced_witness :
  let st := run [Render (undismissable_props true); HardwareBackPress; Unmount]
              (mount (sample_props true)) in
  mounted st = false
  /\ count is_subscribed (trace st) = count is_removed (trace st).
Proof.
  intros st. split; [reflexivity|].
  apply (X12_listeners_balanced (sample_props true)
           [Render (undismissable_props true); HardwareBackPress; Unmount]).
  reflexivity.
Defined.

(** X13. The test identifiers of the root, the backdrop, the wrapper and the
    surface are pairwise different whatever base identifier the caller
    passes; without one they are modal, modal-backdrop, modal-wrapper and
    modal-surface. *)
Theorem X13_testIDs_distinct (testID : option String.string) :
  NoDup [id_root (Modal_testIDs testID); id_backdrop (Modal_testIDs testID);
         id_wrapper (Modal_testIDs testID); id_surface (Modal_testIDs testID)]
  /\ Modal_testIDs None
     = {| id_root := "modal"%string;
          id_backdrop := "modal-backdrop"%string;
          id_wrapper := "modal-wrapper"%string;
          id_surface := "modal-surface"%string |}.
Proof.
  split; [|reflexivity].
  unfold Modal_testIDs. simpl.
  set (t := match testID with Some s => s | None => "modal"%string end).
  repeat constructor; simpl; intros H;
    repeat match goal with
    | H : _ \/ _ |- _ => destruct H as [H|H]
    | H : False |- _ => contradiction
    end;
    try (apply append_inj_r in H; discriminate H);
    try (symmetry in H; revert H; apply append_neq_self; simpl; lia);
    try (revert H; apply append_neq_self; simpl; lia).
Qed.
